(** * FinanceStocks: the quote gateway and the dashboard controller

    A shallow embedding of the two source files of the repository:

    - [src/pages/api/stock.ts], the server-side handler that forwards one
      request to the market-data provider and classifies the answer;
    - the dashboard page component ([Home]), whose state logic parses the
      daily time series, derives the day-over-day change and maintains the
      two persisted lists (search history and favorites).

    JavaScript values are modelled as the program sees them: JSON values
    with objects as finite maps, numbers as IEEE 754 binary64 floats (the
    kernel's primitive floats), strings as sequences of code units (Rocq
    strings, so code units below 256), exceptions as an explicit
    completion, and React state updates as a trace of setter calls that is
    replayed on the component state. *)

From Stdlib Require Import ZArith Floats Ascii.
From stdpp Require Import gmap strings list sorting pretty.

#[local] Set Warnings "-register-all".
#[local] Open Scope Z_scope.

(** ** Strings and their order *)

(** [x < y] on JavaScript strings and the default comparator of
    [Array.prototype.sort] compare code units lexicographically, a proper
    prefix being smaller. This is [String.compare], and [String.le] is the
    total order it gives. [older a b] says that the date [a] sorts strictly
    before the date [b]. *)
Definition older : relation string := strict String.le.

(** ** JSON values *)

(** The result of [JSON.parse] and of [Response.json()]. A JavaScript value
    that may also be [undefined] is an [option json]. *)
Inductive json : Type :=
| JNull
| JBool (b : bool)
| JNum (x : float)
| JStr (s : string)
| JArr (l : list json)
| JObj (m : gmap string json).

Definition jsval : Type := option json.

(** ** Completions: normal result, early [return], thrown exception *)

Inductive completion (A : Type) : Type :=
| Normal (a : A)
| Return
| Throw.
Arguments Normal {A} a.
Arguments Return {A}.
Arguments Throw {A}.

#[global] Instance completion_ret : MRet completion := λ A a, Normal a.
#[global] Instance completion_bind : MBind completion := λ A B f m,
  match m with
  | Normal a => f a
  | Return => Return
  | Throw => Throw
  end.

(** Awaiting a promise, or calling a function that may throw: [None] is the
    rejection or the exception. *)
Definition settle {A} (o : option A) : completion A :=
  match o with
  | Some a => Normal a
  | None => Throw
  end.

(** ** Procedures: the events a call emits, in order, and how it completes *)

Record proc (E A : Type) : Type := Proc {
  events : list E;
  outcome : completion A;
}.
Arguments Proc {E A} events outcome.
Arguments events {E A} p.
Arguments outcome {E A} p.

#[global] Instance proc_ret {E} : MRet (proc E) := λ A a, Proc [] (Normal a).
#[global] Instance proc_bind {E} : MBind (proc E) := λ A B f m,
  match outcome m with
  | Normal a => Proc (events m ++ events (f a)) (outcome (f a))
  | Return => Proc (events m) Return
  | Throw => Proc (events m) Throw
  end.

Definition emit {E} (e : E) : proc E unit := Proc [e] (Normal ()).

(** A pure computation inside a procedure; its exception is the
    procedure's. *)
Definition lift {E A} (c : completion A) : proc E A := Proc [] c.

(** The statement [return;]. *)
Definition return_ {E A} : proc E A := Proc [] Return.

(** [try { body } catch { handler }]: [handler] runs when [body] throws; a
    [return] inside [body] leaves the function. *)
Definition try_catch {E} (body handler : proc E unit) : proc E unit :=
  match outcome body with
  | Throw => Proc (events body ++ events handler) (outcome handler)
  | Normal _ | Return => body
  end.

(** ** Primitive operations of the language *)

Module JS.

(** [!!v]: truthiness. *)
Definition truthy (v : jsval) : bool :=
  match v with
  | None => false
  | Some JNull => false
  | Some (JBool b) => b
  | Some (JNum x) => negb (PrimFloat.eqb x 0%float || PrimFloat.is_nan x)
  | Some (JStr s) => negb (String.eqb s "")
  | Some (JArr _) => true
  | Some (JObj _) => true
  end.

(** The canonical property name of an array index. *)
Definition index_key (i : nat) : string := pretty i.

Definition index_keys (n : nat) : list string := index_key <$> seq 0 n.

Definition own_index (n : nat) (k : string) : option nat :=
  fst <$> list_find (λ k', k' = k) (index_keys n).

Definition char_at (s : string) (i : nat) : jsval :=
  (λ c, JStr (String c "")) <$> String.get i s.

(** [v[k]] for the property names the program uses: the fixed field names
    of the provider's format and names returned by [Object.keys] on the
    same value. None of them names an inherited member, so only own
    properties are looked up. Reading a property of [null] throws. *)
Definition get_prop (v : json) (k : string) : completion jsval :=
  match v with
  | JNull => Throw
  | JObj m => Normal (m !! k)
  | JArr l => Normal (i ← own_index (length l) k; l !! i)
  | JStr s => Normal (i ← own_index (String.length s) k; char_at s i)
  | JBool _ | JNum _ => Normal None
  end.

(** [v[k]] where [v] may be [undefined]. *)
Definition get (v : jsval) (k : string) : completion jsval :=
  match v with
  | None => Throw
  | Some j => get_prop j k
  end.

(** [Object.keys(v)], up to the order of the keys of an object: the
    program sorts the result, and the keys are pairwise distinct. *)
Definition Object_keys (v : json) : completion (list string) :=
  match v with
  | JNull => Throw
  | JObj m => Normal (map_to_list m).*1
  | JArr l => Normal (index_keys (length l))
  | JStr s => Normal (index_keys (String.length s))
  | JBool _ | JNum _ => Normal []
  end.

(** [a.sort()] on an array of strings, with the default comparator. *)
Definition sort (l : list string) : list string := merge_sort String.le l.

(** [a.slice(start, end)]. *)
Definition slice {A} (start end_ : Z) (l : list A) : list A :=
  let len := Z.of_nat (length l) in
  let k := if start <? 0 then Z.max (len + start) 0 else Z.min start len in
  let final := if end_ <? 0 then Z.max (len + end_) 0 else Z.min end_ len in
  take (Z.to_nat (final - k)) (drop (Z.to_nat k) l).

End JS.

(** ** Numbers: conversion from strings and [toFixed] *)

Module Number.

Definition prec : Z := 53.
Definition emax : Z := 1024.

(** The binary64 value nearest to the integer [m] (ties to even). *)
Definition of_pos (neg : bool) (m : positive) : float :=
  SF2Prim (binary_round prec emax neg m 0).

(** The binary64 value nearest to [m * 10 ^ e10]. *)
Definition of_decimal (neg : bool) (m : Z) (e10 : Z) : float :=
  match m with
  | Z.pos p =>
      if (0 <=? e10)%Z then
        match (Z.pos p * 10 ^ e10)%Z with
        | Z.pos q => of_pos neg q
        | _ => SF2Prim (S754_zero neg)
        end
      else
        match (10 ^ (- e10))%Z with
        | Z.pos d =>
            SF2Prim (SFdiv prec emax (S754_finite neg p 0) (S754_finite false d 0))
        | _ => SF2Prim (S754_zero neg)
        end
  | _ => SF2Prim (S754_zero neg)
  end.

(** White space and line terminators among the code units below 256. *)
Definition is_space (c : ascii) : bool :=
  let n := Z.of_N (N_of_ascii c) in
  ((9 <=? n) && (n <=? 13)) || (n =? 32) || (n =? 160).

Fixpoint trim_start (s : string) : string :=
  match s with
  | String c s' => if is_space c then trim_start s' else s
  | EmptyString => EmptyString
  end.

Definition trim (s : string) : string :=
  String.rev (trim_start (String.rev (trim_start s))).

Definition digit (radix : Z) (c : ascii) : option Z :=
  let n := Z.of_N (N_of_ascii c) in
  let d :=
    if (48 <=? n) && (n <=? 57) then Some (n - 48)
    else if (97 <=? n) && (n <=? 102) then Some (n - 87)
    else if (65 <=? n) && (n <=? 70) then Some (n - 55)
    else None in
  d' ← d; if d' <? radix then Some d' else None.

(** Reads the longest prefix of digits: the value accumulated on [acc],
    the number of digits read and the rest of the string. *)
Fixpoint read_digits (radix : Z) (s : string) (acc : Z) (count : nat)
  : Z * nat * string :=
  match s with
  | String c s' =>
      match digit radix c with
      | Some d => read_digits radix s' (acc * radix + d) (S count)
      | None => (acc, count, s)
      end
  | EmptyString => (acc, count, s)
  end.

Definition read_sign (s : string) : bool * string :=
  match s with
  | String "+"%char s' => (false, s')
  | String "-"%char s' => (true, s')
  | _ => (false, s)
  end.

(** The optional exponent part, which must end the literal. *)
Definition read_exponent (s : string) : option Z :=
  match s with
  | EmptyString => Some 0
  | String c s' =>
      if bool_decide (c = "e"%char ∨ c = "E"%char) then
        let '(neg, s'') := read_sign s' in
        match read_digits 10 s'' 0 0%nat with
        | (_, O, _) => None
        | (e, _, EmptyString) => Some (if neg then - e else e)
        | _ => None
        end
      else None
  end.

(** [StrDecimalLiteral] without the sign: [Infinity], or digits with an
    optional fraction and exponent, at least one digit in all. *)
Definition unsigned_decimal (neg : bool) (s : string) : float :=
  if String.eqb s "Infinity" then (if neg then neg_infinity else infinity)
  else
    let '(ip, n_ip, r1) := read_digits 10 s 0 0%nat in
    let '(m, n_fp, r2) :=
      match r1 with
      | String "."%char r => let '(m, n, r') := read_digits 10 r ip 0%nat in (m, n, r')
      | _ => (ip, 0%nat, r1)
      end in
    if bool_decide (n_ip + n_fp = 0)%nat then nan
    else match read_exponent r2 with
         | Some e => of_decimal neg m (e - Z.of_nat n_fp)%Z
         | None => nan
         end.

(** [0x], [0o] and [0b] literals: unsigned, at least one digit. *)
Definition non_decimal (radix : Z) (s : string) : float :=
  match read_digits radix s 0 0%nat with
  | (_, O, _) => nan
  | (v, _, EmptyString) => of_decimal false v 0
  | _ => nan
  end.

(** [StringToNumber]: the value of the string as a numeric literal, [NaN]
    when it is none, [+0] when it is empty or white space. *)
Definition StringToNumber (s : string) : float :=
  match trim s with
  | EmptyString => 0%float
  | String "0"%char (String c r) as t =>
      if bool_decide (c = "x"%char ∨ c = "X"%char) then non_decimal 16 r
      else if bool_decide (c = "o"%char ∨ c = "O"%char) then non_decimal 8 r
      else if bool_decide (c = "b"%char ∨ c = "B"%char) then non_decimal 2 r
      else unsigned_decimal false t
  | t => let '(neg, r) := read_sign t in unsigned_decimal neg r
  end.

(** [ToNumber(ToString(e))] for the only element [e] of an array: [null]
    prints as the empty string, a number prints and reads back as itself
    (the sign of zero apart), an object prints as no numeric literal. *)
Fixpoint ToNumber_json (v : json) : float :=
  match v with
  | JNull => 0%float
  | JBool b => if b then 1%float else 0%float
  | JNum x => x
  | JStr s => StringToNumber s
  | JObj _ => nan
  | JArr [] => 0%float
  | JArr [e] =>
      match e with
      | JNull => 0%float
      | JBool _ => nan
      | JNum x => if PrimFloat.eqb x 0%float then 0%float else x
      | JStr s => StringToNumber s
      | JObj _ => nan
      | JArr _ => ToNumber_json e
      end
  | JArr (_ :: _ :: _) => nan
  end.

(** Unary plus: [+v]. *)
Definition ToNumber (v : jsval) : float :=
  match v with
  | None => nan
  | Some j => ToNumber_json j
  end.

(** *** [Number.prototype.toFixed] *)

(** The decimal digits of a natural number. *)
Definition digits (n : Z) : string := pretty (Z.to_N n).

(** The integer [n] for which [n / 10 ^ f] is nearest to [m * 2 ^ e],
    the larger one when two are equally near. *)
Definition nearest_scaled (m : positive) (e : Z) (f : nat) : Z :=
  let v := Z.pos m * 10 ^ Z.of_nat f in
  if 0 <=? e then v * 2 ^ e else (2 * v + 2 ^ (- e)) `div` 2 ^ (1 - e).

Fixpoint zeros (k : nat) : string :=
  match k with
  | O => EmptyString
  | S k' => String "0"%char (zeros k')
  end.

(** The digits of [n] with a decimal point before the last [f] of them,
    padded with zeros on the left to [f + 1] digits. *)
Definition fixed_point (n : Z) (f : nat) : string :=
  let m := digits n in
  let k := String.length m in
  let m := if (k <=? f)%nat then zeros (f + 1 - k)%nat +:+ m else m in
  let k := String.length m in
  if (f =? 0)%nat then m
  else String.substring 0 (k - f)%nat m +:+ "." +:+ String.substring (k - f)%nat f m.

(** Whether the decimal [c] reads back as the number [x]. *)
Definition reads_as (x : float) (c : Z) : bool :=
  PrimFloat.eqb (of_decimal false c 0) x.

(** [Number::toString] on an integer [v] of [d >= 22] digits, the exact
    value of [x]: the shortest digit string [s] of [k] digits such that
    [s * 10 ^ (n - k)] reads back as [x], the nearest one to [v] when
    there are two, in exponent notation. *)
Fixpoint shortest (x : float) (v : Z) (d : Z) (k : nat) (fuel : nat)
  : Z * Z * nat :=
  let kz := Z.of_nat k in
  let p := 10 ^ (d - kz) in
  let lo := v `div` p in
  let up := if lo + 1 =? 10 ^ kz then (10 ^ (kz - 1), d + 1) else (lo + 1, d) in
  let ok_lo := reads_as x (lo * p) in
  let ok_up := reads_as x ((lo + 1) * p) in
  let lo_nearer :=
    let a := v - lo * p in
    let b := (lo + 1) * p - v in
    (a <? b) || ((a =? b) && Z.even lo) in
  match fuel with
  | O => (lo, d, k)
  | S fuel' =>
      if ok_lo && (negb ok_up || lo_nearer) then (lo, d, k)
      else if ok_up then (up.1, up.2, k)
      else shortest x v d (S k) fuel'
  end.

Definition toString_large (x : float) (m : positive) (e : Z) : string :=
  let v := Z.pos m * 2 ^ e in
  let d := Z.of_nat (String.length (digits v)) in
  let '(s, n, k) := shortest x v d 1 17 in
  let ds := digits s in
  let mantissa :=
    match ds with
    | String c (String _ _ as r) => String c ("." +:+ r)
    | _ => ds
    end in
  mantissa +:+ "e+" +:+ digits (n - 1).

(** [x.toFixed(f)], for [0 <= f <= 100]. *)
Definition toFixed (x : float) (f : nat) : string :=
  match Prim2SF x with
  | S754_nan => "NaN"
  | S754_infinity sign => if sign then "-Infinity" else "Infinity"
  | S754_zero _ => fixed_point 0 f
  | S754_finite sign m e =>
      let s := if sign then "-" else "" in
      if PrimFloat.leb 1e21 (PrimFloat.abs x) then
        s +:+ toString_large (PrimFloat.abs x) m e
      else s +:+ fixed_point (nearest_scaled m e f) f
  end.

(** *** The shape of a number printed with two decimals *)

Definition is_digit (c : ascii) : bool :=
  let n := Z.of_N (N_of_ascii c) in (48 <=? n) && (n <=? 57).

Fixpoint all_digits (s : string) : bool :=
  match s with
  | EmptyString => true
  | String c r => is_digit c && all_digits r
  end.

(** The parts of [s] before and after its first decimal point. *)
Fixpoint split_at_point (s : string) : option (string * string) :=
  match s with
  | EmptyString => None
  | String c r =>
      if bool_decide (c = "."%char) then Some (EmptyString, r)
      else '(a, b) ← split_at_point r; Some (String c a, b)
  end.

Definition unsigned (s : string) : string :=
  match s with
  | String c r => if bool_decide (c = "-"%char) then r else s
  | EmptyString => s
  end.

(** An optional minus sign, at least one digit, a point, two digits. *)
Definition two_decimals (s : string) : bool :=
  match split_at_point (unsigned s) with
  | Some (ip, fp) =>
      negb (String.eqb ip "") && all_digits ip && all_digits fp
        && (String.length fp =? 2)%nat
  | None => false
  end.

(** A number that [toFixed] prints in fixed-point notation: finite and
    below [10^21] in magnitude. *)
Definition fixable (x : float) : bool :=
  match Prim2SF x with
  | S754_zero _ => true
  | S754_finite _ _ _ => negb (PrimFloat.leb 1e21 (PrimFloat.abs x))
  | S754_infinity _ | S754_nan => false
  end.

End Number.

(** ** The [fetch] API: a response with its status and the two readers of
    its body, [text()] and [json()], each of which may reject *)

Module Http.

Record Response : Type := {
  status : Z;
  text : option string;
  json_body : option json;
}.

(** [response.ok]: the status is in the range 200 to 299. *)
Definition ok (r : Response) : bool := (200 <=? status r) && (status r <=? 299).

Inductive result : Type :=
| Rejects
| Resolves (r : Response).

Definition await (r : result) : completion Response :=
  match r with
  | Rejects => Throw
  | Resolves r => Normal r
  end.

End Http.

(** ** The quote gateway: [src/pages/api/stock.ts] *)

Module Gateway.

(** [req.query.symbol]: absent, one value, or several values. *)
Inductive query_value : Type :=
| QMissing
| QString (s : string)
| QArray (l : list string).

(** What the handler does to the outside: a line on the server log
    ([console.error], by its label) and the response it sends
    ([res.status(code).json(body)]). *)
Inductive event : Type :=
| Log (label : string)
| Send (code : Z) (body : json).

(** The object literal [{ error: v }] as it is serialised: a field whose
    value is [undefined] is left out. *)
Definition error_body (v : jsval) : json :=
  match v with
  | Some j => JObj {[ "error" := j ]}
  | None => JObj ∅
  end.

Definition endpoint (symbol API_KEY : string) : string :=
  "https://www.alphavantage.co/query?function=TIME_SERIES_DAILY&symbol="
    +:+ symbol +:+ "&apikey=" +:+ API_KEY.

Definition classify (response : Http.Response) : proc event unit :=
  if negb (Http.ok response) then
    text ← lift (settle (Http.text response));
    emit (Log "Alpha Vantage response not OK:");;
    emit (Send (Http.status response)
            (error_body (Some (JStr ("Alpha Vantage error: " +:+ text)))));;
    return_
  else
    data ← lift (settle (Http.json_body response));
    err ← lift (JS.get_prop data "Error Message");
    (if JS.truthy err then
       emit (Log "Alpha Vantage error message:");;
       emit (Send 500 (error_body err));;
       return_
     else mret ());;
    note ← lift (JS.get_prop data "Note");
    (if JS.truthy note then
       emit (Log "Alpha Vantage rate limit notice:");;
       emit (Send 429 (error_body note));;
       return_
     else mret ());;
    emit (Send 200 data).

Definition handler (symbol : query_value) (API_KEY : option string)
    (fetch : string → Http.result) : proc event unit :=
  match symbol with
  | QString symbol =>
      if negb (JS.truthy (Some (JStr symbol))) then
        emit (Send 400 (error_body (Some (JStr "Missing symbol parameter"))))
      else
        match API_KEY with
        | Some API_KEY =>
            if negb (JS.truthy (Some (JStr API_KEY))) then
              emit (Log "API key missing!");;
              emit (Send 500 (error_body (Some (JStr "API key not set in environment variables"))))
            else
              try_catch
                (response ← lift (Http.await (fetch (endpoint symbol API_KEY)));
                 classify response)
                (emit (Log "Fetch failed:");;
                 emit (Send 500 (error_body (Some (JStr "Failed to fetch data")))))
        | None =>
            emit (Log "API key missing!");;
            emit (Send 500 (error_body (Some (JStr "API key not set in environment variables"))))
        end
  | QMissing | QArray _ =>
      emit (Send 400 (error_body (Some (JStr "Missing symbol parameter"))))
  end.

(** The responses sent during a call, in order. *)
Definition sent (p : proc event unit) : list (Z * json) :=
  omap (λ e, match e with Send c b => Some (c, b) | Log _ => None end) (events p).

End Gateway.

(** ** The dashboard controller: the [Home] component *)

Module StockData.
(** [interface StockData]. *)
Record t : Type := {
  date : string;
  open : float;
  high : float;
  low : float;
  close : float;
  volume : float;
  prevClose : option float;
}.
End StockData.

Module DayBar.
(** One entry of [multiDayData]. *)
Record t : Type := {
  date : string;
  open : float;
  high : float;
  low : float;
  close : float;
  volume : float;
}.
End DayBar.

Module Controller.

(** The state cells of the component that the controller logic reads and
    writes ([useState]). *)
Record State : Type := {
  symbol : string;
  stockData : option StockData.t;
  error : json;
  loading : bool;
  history : list string;
  favorites : list string;
  multiDayData : list DayBar.t;
}.

(** The calls a handler makes: the state setters, and the request to the
    gateway. [SetHistory] takes the updater function, as the source
    does. *)
Inductive event : Type :=
| SetError (e : json)
| SetStockData (d : option StockData.t)
| SetMultiDayData (l : list DayBar.t)
| SetLoading (b : bool)
| SetHistory (f : list string → list string)
| SetFavorites (l : list string)
| HttpGet (url : string).

Definition apply (st : State) (e : event) : State :=
  match e with
  | SetError e =>
      {| symbol := symbol st; stockData := stockData st; error := e;
         loading := loading st; history := history st;
         favorites := favorites st; multiDayData := multiDayData st |}
  | SetStockData d =>
      {| symbol := symbol st; stockData := d; error := error st;
         loading := loading st; history := history st;
         favorites := favorites st; multiDayData := multiDayData st |}
  | SetMultiDayData l =>
      {| symbol := symbol st; stockData := stockData st; error := error st;
         loading := loading st; history := history st;
         favorites := favorites st; multiDayData := l |}
  | SetLoading b =>
      {| symbol := symbol st; stockData := stockData st; error := error st;
         loading := b; history := history st;
         favorites := favorites st; multiDayData := multiDayData st |}
  | SetHistory f =>
      {| symbol := symbol st; stockData := stockData st; error := error st;
         loading := loading st; history := f (history st);
         favorites := favorites st; multiDayData := multiDayData st |}
  | SetFavorites l =>
      {| symbol := symbol st; stockData := stockData st; error := error st;
         loading := loading st; history := history st;
         favorites := l; multiDayData := multiDayData st |}
  | HttpGet _ => st
  end.

(** The state after the updates of a call have been applied, in order. *)
Definition replay (st : State) (es : list event) : State := foldl apply st es.

(** *** Favorites and history *)

(** [favorites.includes(sym)]. *)
Definition includes (l : list string) (sym : string) : bool :=
  bool_decide (sym ∈ l).

(** [toggleFavorite], on the [favorites] of the current render. *)
Definition toggleFavorite (favorites : list string) (sym : string)
  : proc event unit :=
  if includes favorites sym then
    emit (SetFavorites (filter (λ f, f ≠ sym) favorites))
  else
    emit (SetFavorites (favorites ++ [sym])).

(** The updater of [addToHistory]:
    [[sym, ...prev.filter(h => h !== sym)].slice(0, 10)]. *)
Definition newHist (sym : string) (prev : list string) : list string :=
  JS.slice 0 10 (sym :: filter (λ h, h ≠ sym) prev).

Definition addToHistory (sym : string) : proc event unit :=
  emit (SetHistory (newHist sym)).

(** *** The change indicator *)

(** The three markers: the upward triangle, the downward triangle and
    the empty string. *)
Inductive arrow : Type := Up | Down | Flat.

(** The rendered [<span>]: the arrow, its colour, and the two numbers as
    printed, in [{arrow} {change} ({percent}%)]. *)
Record change_view : Type := {
  marker : arrow;
  color : string;
  change_text : string;
  percent_text : string;
}.

(** [renderChange]. [None] is the [null] it returns, which renders
    nothing. *)
Definition renderChange (close : float) (prevClose : option float)
  : option change_view :=
  match prevClose with
  | None => None
  | Some prevClose =>
      let change := (close - prevClose)%float in
      let percent := (change / prevClose * 100)%float in
      let arrow :=
        if PrimFloat.ltb 0 change then Up
        else if PrimFloat.ltb change 0 then Down else Flat in
      let color :=
        if PrimFloat.ltb 0 change then "#16a34a"
        else if PrimFloat.ltb change 0 then "#dc2626" else "#6b7280" in
      Some {| marker := arrow; color := color;
              change_text := Number.toFixed change 2;
              percent_text := Number.toFixed percent 2 |}
  end.

(** *** Fetching a quote *)

(** [+d[field]]. *)
Definition field (d : jsval) (name : string) : completion float :=
  v ← JS.get d name; mret (Number.ToNumber v).

(** The element of [multiDays] for one date. *)
Definition dayBar (timeSeries : json) (date : string) : completion DayBar.t :=
  d ← JS.get_prop timeSeries date;
  o ← field d "1. open";
  h ← field d "2. high";
  l ← field d "3. low";
  c ← field d "4. close";
  v ← field d "5. volume";
  mret {| DayBar.date := date; DayBar.open := o; DayBar.high := h;
          DayBar.low := l; DayBar.close := c; DayBar.volume := v |}.

(** [Object.keys(timeSeries).sort().reverse()]. *)
Definition sortedDates (timeSeries : json) : completion (list string) :=
  keys ← JS.Object_keys timeSeries;
  mret (reverse (JS.sort keys)).

(** The snapshot and the series computed from a truthy [timeSeries], up
    to the calls of [setStockData] and [setMultiDayData]. When there is no
    key, [latestDate] and [latestData] are [undefined] and reading
    [latestData['1. open']] throws. *)
Definition parseSeries (timeSeries : json)
  : completion (StockData.t * list DayBar.t) :=
  dates ← sortedDates timeSeries;
  match dates !! 0%nat with
  | None => Throw
  | Some latestDate =>
      latestData ← JS.get_prop timeSeries latestDate;
      multiDays ← mapM (dayBar timeSeries) (JS.slice 0 10 dates);
      o ← field latestData "1. open";
      h ← field latestData "2. high";
      l ← field latestData "3. low";
      c ← field latestData "4. close";
      v ← field latestData "5. volume";
      prev ←
        (if bool_decide (1 < length dates)%nat then
           match dates !! 1%nat with
           | Some d1 =>
               e ← JS.get_prop timeSeries d1;
               p ← field e "4. close";
               mret (Some p)
           | None => Throw
           end
         else mret None);
      mret ({| StockData.date := latestDate; StockData.open := o;
               StockData.high := h; StockData.low := l;
               StockData.close := c; StockData.volume := v;
               StockData.prevClose := prev |}, multiDays)
  end.

(** [fetch(url)] from the page: the request is observable. *)
Definition http_get (fetch : string → Http.result) (url : string)
  : proc event Http.Response :=
  emit (HttpGet url);; lift (Http.await (fetch url)).

(** [fetchStock], on the [symbol] of the current render. *)
Definition fetchStock (symbol : string) (fetch : string → Http.result)
  : proc event unit :=
  emit (SetError (JStr ""));;
  emit (SetStockData None);;
  emit (SetMultiDayData []);;
  (if negb (JS.truthy (Some (JStr symbol))) then
     emit (SetError (JStr "Please enter a stock symbol"));;
     return_
   else mret ());;
  emit (SetLoading true);;
  try_catch
    (res ← http_get fetch ("/api/stock?symbol=" +:+ symbol);
     data ← lift (settle (Http.json_body res));
     if Http.ok res then
       timeSeries ← lift (JS.get_prop data "Time Series (Daily)");
       match timeSeries with
       | Some ts =>
           if JS.truthy timeSeries then
             parsed ← lift (parseSeries ts);
             emit (SetStockData (Some parsed.1));;
             emit (SetMultiDayData parsed.2);;
             addToHistory symbol
           else
             emit (SetError (JStr "No time series data available for this symbol"));;
             emit (SetLoading false);;
             return_
       | None =>
           emit (SetError (JStr "No time series data available for this symbol"));;
           emit (SetLoading false);;
           return_
       end
     else
       message ← lift (JS.get_prop data "Error Message");
       emit (SetError (if JS.truthy message
                       then default JNull message
                       else JStr "Failed to fetch stock data")))
    (emit (SetError (JStr "Error fetching stock data")));;
  emit (SetLoading false).

End Controller.

(** ** Restoring the persisted lists when the component mounts *)

Module Startup.

(** The two list cells as the restoring effects leave them: whatever
    [JSON.parse] returned is stored as it is. *)
Record Lists : Type := {
  history : json;
  favorites : json;
}.

Inductive event : Type :=
| SetHistory (v : json)
| SetFavorites (v : json).

Definition apply (st : Lists) (e : event) : Lists :=
  match e with
  | SetHistory v => {| history := v; favorites := favorites st |}
  | SetFavorites v => {| history := history st; favorites := v |}
  end.

(** [useState<string[]>([])], twice. *)
Definition initial : Lists := {| history := JArr []; favorites := JArr [] |}.

Section Restore.

(** [JSON.parse]; [None] when it throws a [SyntaxError]. *)
Variable JSON_parse : string → option json.

(** [localStorage], a map from keys to the strings stored. *)
Variable localStorage : gmap string string.

(** The body shared by the two effects: read the item, and when it is a
    non-empty string parse it and store the result; store the empty
    list when anything throws. *)
Definition restore (key : string) (set : json → event) : proc event unit :=
  try_catch
    (let item := localStorage !! key in
     if JS.truthy (JStr <$> item) then
       v ← lift (settle (item ≫= JSON_parse));
       emit (set v)
     else mret ())
    (emit (set (JArr []))).

Definition restoreHistory : proc event unit :=
  restore "stockSearchHistory" SetHistory.

Definition restoreFavorites : proc event unit :=
  restore "stockFavorites" SetFavorites.

(** The two effects run once, in the order of their declaration. *)
Definition mount : proc event unit :=
  restoreHistory;; restoreFavorites.

Definition mounted : Lists := foldl apply initial (events mount).

(** What a cell holds after the mount, by the item stored under its
    key alone. *)
Definition restored (item : option string) : json :=
  match item with
  | None => JArr []
  | Some item =>
      if String.eqb item "" then JArr []
      else default (JArr []) (JSON_parse item)
  end.

(** The stored value is absent, or it is not parseable JSON. *)
Definition unreadable (key : string) : Prop :=
  match localStorage !! key with
  | None => True
  | Some item => JSON_parse item = None
  end.

End Restore.

End Startup.

(** ** Derived notions used to state the properties *)

(** The dated entries of a time series: its keys. *)
Definition dated_entries (timeSeries : json) : list string :=
  match JS.Object_keys timeSeries with
  | Normal keys => keys
  | Return | Throw => []
  end.

(** The dates as the controller orders them: sorted, then reversed. *)
Definition newest_first (keys : list string) : list string :=
  reverse (JS.sort keys).

(** The time series that the gateway serves for a symbol, when it answers
    with a success status and a payload that has one. *)
Definition served_series (fetch : string → Http.result) (symbol : string)
  : option json :=
  match fetch ("/api/stock?symbol=" +:+ symbol) with
  | Http.Resolves res =>
      if Http.ok res then
        data ← Http.json_body res;
        match JS.get_prop data "Time Series (Daily)" with
        | Normal (Some ts) => if JS.truthy (Some ts) then Some ts else None
        | _ => None
        end
      else None
  | Http.Rejects => None
  end.

(** The close of a date of the series: [+timeSeries[date]['4. close']]. *)
Definition close_on (timeSeries : json) (date : string) : completion float :=
  e ← JS.get_prop timeSeries date; Controller.field e "4. close".

(** The state after a call of [fetchStock]. *)
Definition fetched (st : Controller.State) (fetch : string → Http.result)
  : Controller.State :=
  Controller.replay st
    (events (Controller.fetchStock (Controller.symbol st) fetch)).

(** The state after searching the symbols of [syms] with success, one after
    the other: one call of [addToHistory] each. *)
Definition searched (st : Controller.State) (syms : list string)
  : Controller.State :=
  Controller.replay st (syms ≫= λ sym, events (Controller.addToHistory sym)).

(** The state after a click on the favorite button for [sym]. *)
Definition toggled (st : Controller.State) (sym : string) : Controller.State :=
  Controller.replay st
    (events (Controller.toggleFavorite (Controller.favorites st) sym)).

(** *** The payloads of the worked examples *)

Module Example.

Definition day (o h l c v : string) : json :=
  JObj {[ "1. open" := JStr o; "2. high" := JStr h; "3. low" := JStr l;
          "4. close" := JStr c; "5. volume" := JStr v ]}.

Definition two_days : json :=
  JObj {[ "Time Series (Daily)" :=
    JObj {[ "2024-01-02" := day "10" "12" "9" "11" "100";
            "2024-01-01" := day "9" "10" "8" "9.5" "80" ]} ]}.

Definition rate_limited : json := JObj {[ "Note" := JStr "rate limited" ]}.

(** A response with the given status and JSON payload. *)
Definition replies (status : Z) (data : json) (url : string) : Http.result :=
  Http.Resolves
    {| Http.status := status; Http.text := None; Http.json_body := Some data |}.

(** A response with the given status whose body is not JSON. *)
Definition fails (status : Z) (text : string) (url : string) : Http.result :=
  Http.Resolves
    {| Http.status := status; Http.text := Some text; Http.json_body := None |}.

(** A page that shows a quote and a full history. *)
Definition ten_searches : Controller.State :=
  {| Controller.symbol := "";
     Controller.stockData :=
       Some {| StockData.date := "2024-01-02"; StockData.open := 10;
               StockData.high := 12; StockData.low := 9;
               StockData.close := 11; StockData.volume := 100;
               StockData.prevClose := Some 9.5%float |};
     Controller.error := JStr ""; Controller.loading := false;
     Controller.history :=
       ["A"; "B"; "C"; "D"; "E"; "F"; "G"; "H"; "I"; "J"];
     Controller.favorites := ["A"];
     Controller.multiDayData :=
       [{| DayBar.date := "2024-01-02"; DayBar.open := 10;
           DayBar.high := 12; DayBar.low := 9;
           DayBar.close := 11; DayBar.volume := 100 |}] |}.

(** The snapshot of [two_days]. *)
Definition latest : StockData.t :=
  {| StockData.date := "2024-01-02"; StockData.open := 10;
     StockData.high := 12; StockData.low := 9;
     StockData.close := 11; StockData.volume := 100;
     StockData.prevClose := Some 9.5%float |}.

Definition typed (symbol : string) : Controller.State :=
  {| Controller.symbol := symbol; Controller.stockData := None;
     Controller.error := JStr ""; Controller.loading := false;
     Controller.history := []; Controller.favorites := [];
     Controller.multiDayData := [] |}.

(** The page asks the gateway, which asks the provider: the response the
    page receives is the one the gateway sent. *)
Definition through_gateway (API_KEY : string)
    (upstream : string → Http.result) (symbol : string) (url : string)
  : Http.result :=
  match Gateway.sent (Gateway.handler (Gateway.QString symbol) (Some API_KEY) upstream) with
  | (code, body) :: _ =>
      Http.Resolves {| Http.status := code; Http.text := None;
                       Http.json_body := Some body |}
  | [] => Http.Rejects
  end.

End Example.

(** ** Printing a number: [Number::toString] *)

Module NumberText.

(** The value [num / den * 10 ^ j] as a fraction. *)
Definition scaled (num den j : Z) : Z * Z :=
  if 0 <=? j then (num * 10 ^ j, den) else (num, den * 10 ^ (- j)).

Definition scaled_floor (num den j : Z) : Z :=
  let '(n, d) := scaled num den j in n `div` d.

(** Whether the scaled value is nearer to [lo] than to [lo + 1], the even
    one when it is half way. *)
Definition nearer_low (num den j lo : Z) : bool :=
  let '(n, d) := scaled num den j in
  (2 * n <? (2 * lo + 1) * d) || ((2 * n =? (2 * lo + 1) * d) && Z.even lo).

Fixpoint first_scale (num den t : Z) (fuel : nat) : Z :=
  match fuel with
  | O => t
  | S fuel' =>
      if den <=? num * 10 ^ t then t else first_scale num den (t + 1) fuel'
  end.

(** The [n] with [10 ^ (n - 1) <= num / den < 10 ^ n]. *)
Definition decimal_exponent (num den : Z) : Z :=
  if den <=? num then Z.of_nat (String.length (Number.digits (num `div` den)))
  else 1 - first_scale num den 1 400.

Definition reads_as (x : float) (s e10 : Z) : bool :=
  PrimFloat.eqb (Number.of_decimal false s e10) x.

(** The integers [s], [n] and [k] of the language definition: [s] has [k]
    digits, [s * 10 ^ (n - k)] reads back as [x], and [k] is as small as
    possible; of two such [s] the one nearer to [x]. *)
Fixpoint shortest (x : float) (num den n0 : Z) (k : nat) (fuel : nat)
  : Z * Z * nat :=
  let kz := Z.of_nat k in
  let lo := scaled_floor num den (kz - n0) in
  let up := if lo + 1 =? 10 ^ kz then (10 ^ (kz - 1), n0 + 1) else (lo + 1, n0) in
  let ok_lo := reads_as x lo (n0 - kz) in
  let ok_up := reads_as x up.1 (up.2 - kz) in
  match fuel with
  | O => (lo, n0, k)
  | S fuel' =>
      if ok_lo && (negb ok_up || nearer_low num den (kz - n0) lo) then (lo, n0, k)
      else if ok_up then (up.1, up.2, k)
      else shortest x num den n0 (S k) fuel'
  end.

(** The digits laid out: an integer, a decimal fraction, or exponent
    notation outside [1e-7 .. 1e21]. *)
Definition layout (s n : Z) (k : nat) : string :=
  let ds := Number.digits s in
  let kz := Z.of_nat k in
  if (kz <=? n) && (n <=? 21) then ds +:+ Number.zeros (Z.to_nat (n - kz))
  else if (0 <? n) && (n <=? 21) then
    String.substring 0 (Z.to_nat n) ds +:+ "."
      +:+ String.substring (Z.to_nat n) (k - Z.to_nat n) ds
  else if (-6 <? n) && (n <=? 0) then
    "0." +:+ Number.zeros (Z.to_nat (- n)) +:+ ds
  else
    let e := n - 1 in
    let exponent := (if 0 <=? e then "e+" else "e-") +:+ Number.digits (Z.abs e) in
    match ds with
    | String c (String _ _ as r) => String c ("." +:+ r) +:+ exponent
    | _ => ds +:+ exponent
    end.

(** [String(x)], as a template literal prints a number. *)
Definition toString (x : float) : string :=
  match Prim2SF x with
  | S754_nan => "NaN"
  | S754_zero _ => "0"
  | S754_infinity sign => if sign then "-Infinity" else "Infinity"
  | S754_finite sign m e =>
      let '(num, den) :=
        if (0 <=? e)%Z then (Z.pos m * 2 ^ e, 1)%Z else (Z.pos m, 2 ^ (- e))%Z in
      let '(s, n, k) :=
        shortest (PrimFloat.abs x) num den (decimal_exponent num den) 1 17 in
      (if sign then "-" else "") +:+ layout s n k
  end.

End NumberText.

(** ** The market clock *)

Module Market.

(** The status that [checkMarketStatus] sets, from the day of the week,
    the hour and the minutes of the New York time ([getDay], [getHours],
    [getMinutes]). *)
Definition checkMarketStatus (day hour minutes : Z) : string :=
  let open := (9 <? hour) || ((hour =? 9) && (30 <=? minutes)) in
  let close := hour <? 16 in
  if (day =? 0) || (day =? 6) then "Market Closed (Weekend)"
  else if open && close then "Market Open"
  else "Market Closed".

(** Minutes since midnight. *)
Definition minute_of_day (hour minutes : Z) : Z := 60 * hour + minutes.

End Market.

(** ** Saving the two lists *)

Module Persist.

Section Save.

(** [JSON.stringify], on the value of a list cell. *)
Variable JSON_stringify : json → string.



End Save.

End Persist.

(** ** The handlers of the page around the controller *)

Module Page.

(** What a handler of the page does besides the calls of the controller:
    it sets the symbol, schedules a callback, or offers a file for
    download. A scheduled callback is the procedure itself, with the
    values of the render that created it. *)
Inductive event : Type :=
| SetSymbol (s : string)
| SetTimeout (callback : proc Controller.event unit) (delay : Z)
| Download (name content : string).

(** The cells of the first render: the arguments of [useState]. *)
Definition initial : Controller.State :=
  {| Controller.symbol := ""; Controller.stockData := None;
     Controller.error := JStr ""; Controller.loading := false;
     Controller.history := []; Controller.favorites := [];
     Controller.multiDayData := [] |}.

Definition setSymbol (st : Controller.State) (s : string) : Controller.State :=
  {| Controller.symbol := s; Controller.stockData := Controller.stockData st;
     Controller.error := Controller.error st;
     Controller.loading := Controller.loading st;
     Controller.history := Controller.history st;
     Controller.favorites := Controller.favorites st;
     Controller.multiDayData := Controller.multiDayData st |}.

(** The state once the updates of a handler are applied; the callbacks it
    scheduled have not run yet. *)
Definition apply (st : Controller.State) (e : event) : Controller.State :=
  match e with
  | SetSymbol s => setSymbol st s
  | SetTimeout _ _ | Download _ _ => st
  end.

(** The callbacks scheduled by a handler, in the order of their calls. *)
Definition scheduled (es : list event) : list (proc Controller.event unit) :=
  omap (λ e, match e with SetTimeout cb _ => Some cb | _ => None end) es.

(** The state after a handler and, later, the callbacks it scheduled. *)
Definition settled (st : Controller.State) (es : list event) : Controller.State :=
  foldl (λ st cb, Controller.replay st (events cb)) (foldl apply st es)
    (scheduled es).

Section Handlers.

(** [String.prototype.toUpperCase]. *)
Variable toUpperCase : string → string.

Variable fetch : string → Http.result.

(** The effect that reads the [symbol] parameter of the page address
    ([urlParams.get('symbol')], [None] when absent). It runs once, after
    the first render: the [fetchStock] it schedules is the one of that
    render. *)
Definition loadFromUrl (render : Controller.State) (sym : option string)
  : proc event unit :=
  if JS.truthy (JStr <$> sym) then
    emit (SetSymbol (toUpperCase (default "" sym)));;
    emit (SetTimeout (Controller.fetchStock (Controller.symbol render) fetch) 300)
  else mret ().

(** The click on the history button of [h], in a render. *)
Definition historyClick (render : Controller.State) (h : string)
  : proc event unit :=
  emit (SetSymbol h);;
  emit (SetTimeout (Controller.fetchStock (Controller.symbol render) fetch) 100).

End Handlers.

(** A line feed. *)
Definition LF : string := String "010"%char "".

(** [a.join(sep)] on strings. *)
Definition join (sep : string) (l : list string) : string :=
  match l with
  | [] => ""
  | x :: rest => foldl (λ acc y, acc +:+ sep +:+ y) x rest
  end.

(** One line of the export. *)
Definition row (d : DayBar.t) : string :=
  DayBar.date d +:+ "," +:+ NumberText.toString (DayBar.open d)
    +:+ "," +:+ NumberText.toString (DayBar.high d)
    +:+ "," +:+ NumberText.toString (DayBar.low d)
    +:+ "," +:+ NumberText.toString (DayBar.close d)
    +:+ "," +:+ NumberText.toString (DayBar.volume d).

(** [exportCSV], in a render. *)
Definition exportCSV (render : Controller.State) : proc event unit :=
  if bool_decide (length (Controller.multiDayData render) = 0%nat) then return_
  else
    let header := "Date,Open,High,Low,Close,Volume" +:+ LF in
    let rows := join LF (row <$> Controller.multiDayData render) in
    let csv := header +:+ rows in
    emit (Download (Controller.symbol render +:+ "_data.csv") csv).

(** The number of occurrences of a character. *)
Fixpoint count (c : ascii) (s : string) : nat :=
  match s with
  | EmptyString => 0
  | String c' r => (if bool_decide (c' = c) then 1 else 0) + count c r
  end.

End Page.

(** An entry of the series that the parse can read: a value other than
    [null] under the date. *)
Definition readable (timeSeries : json) (date : string) : Prop :=
  ∃ v, JS.get_prop timeSeries date = Normal (Some v) ∧ v ≠ JNull.

(** Samples for the handlers of the page. *)
Module Sample.

(** Upper case on the letters a to z; it agrees with [toUpperCase] on
    strings of ASCII characters. *)
Definition upper_char (c : ascii) : ascii :=
  let n := N_of_ascii c in
  if ((97 <=? n) && (n <=? 122))%N then ascii_of_N (n - 32) else c.

Fixpoint upper (s : string) : string :=
  match s with
  | EmptyString => EmptyString
  | String c r => String (upper_char c) (upper r)
  end.



End Sample.

(** The addresses requested during a call of the controller, in order. *)
Definition requests (es : list Controller.event) : list string :=
  omap (λ e, match e with Controller.HttpGet url => Some url | _ => None end) es.

(** The status with which a reply is a success for the page. *)
Definition success_status (code : Z) : bool := (200 <=? code) && (code <=? 299).

(** A field of the export without comma and without line feed. *)
Definition plain_field (s : string) : Prop :=
  Page.count ","%char s = 0%nat ∧ Page.count "010"%char s = 0%nat.

(** The addresses requested by the callbacks that a handler scheduled. *)
Definition later_requests (es : list Page.event) : list string :=
  Page.scheduled es ≫= λ cb, requests (events cb).

(** * Properties *)

(** ** Lists: [slice], the history updater *)

Section ListFacts.

Context {A : Type}.

Lemma slice_prefix (n : nat) (l : list A) :
  JS.slice 0 (Z.of_nat n) l = take n l.
Proof.
  unfold JS.slice.
  replace (0 <? 0) with false by reflexivity.
  destruct (Z.ltb_spec (Z.of_nat n) 0) as [Hneg|_]; [lia|].
  rewrite (Z.min_l 0) by lia. simpl. rewrite drop_0, Z.sub_0_r.
  destruct (decide (n ≤ length l)%nat) as [Hle|Hgt].
  - rewrite Z.min_l by lia. by rewrite Nat2Z.id.
  - rewrite Z.min_r by lia. rewrite Nat2Z.id.
    rewrite !take_ge by lia. done.
Qed.

End ListFacts.

Lemma newHist_unfold (sym : string) (prev : list string) :
  Controller.newHist sym prev = take 10 (sym :: filter (λ h, h ≠ sym) prev).
Proof. unfold Controller.newHist. apply (slice_prefix 10). Qed.

Lemma newHist_length (sym : string) (prev : list string) :
  (length (Controller.newHist sym prev) ≤ 10)%nat.
Proof. rewrite newHist_unfold, length_take. lia. Qed.

Lemma newHist_NoDup (sym : string) (prev : list string) :
  NoDup prev → NoDup (Controller.newHist sym prev).
Proof.
  intros Hprev. rewrite newHist_unfold.
  apply sublist_NoDup with (sym :: filter (λ h, h ≠ sym) prev);
    [|apply sublist_take].
  constructor.
  - rewrite list_elem_of_filter. intros [Hne _]. by apply Hne.
  - by apply NoDup_filter.
Qed.

Lemma searched_history (st : Controller.State) (syms : list string) :
  Controller.history (searched st syms)
  = foldl (λ h sym, Controller.newHist sym h) (Controller.history st) syms.
Proof.
  unfold searched. revert st.
  induction syms as [|sym syms IH]; intros st; simpl; [done|].
  rewrite IH. done.
Qed.

(** C2. Starting from a history without duplicates and of at most 10
    entries, any sequence of history appends leaves a history of at most 10
    entries without duplicates; and one append is: remove the symbol,
    put it in front, keep the first 10. *)
Theorem history_bounded_distinct (st : Controller.State) (syms : list string) :
  NoDup (Controller.history st) →
  (length (Controller.history st) ≤ 10)%nat →
  (length (Controller.history (searched st syms)) ≤ 10)%nat
  ∧ NoDup (Controller.history (searched st syms))
  ∧ ∀ sym,
      Controller.history (searched st [sym])
      = take 10 (sym :: filter (λ h, h ≠ sym) (Controller.history st)).
Proof.
  intros Hnodup Hlen. rewrite searched_history. split_and!.
  - revert Hlen. generalize (Controller.history st).
    induction syms as [|sym syms IH]; intros h Hlen; simpl; [done|].
    apply IH, newHist_length.
  - revert Hnodup. generalize (Controller.history st).
    induction syms as [|sym syms IH]; intros h Hnodup; simpl; [done|].
    by apply IH, newHist_NoDup.
  - intros sym. rewrite searched_history. simpl. apply newHist_unfold.
Qed.

Lemma history_bounded_distinct_witness :
  (length (Controller.history
             (searched Example.ten_searches ["MSFT"; "C"; "MSFT"])) ≤ 10)%nat
  ∧ NoDup (Controller.history
             (searched Example.ten_searches ["MSFT"; "C"; "MSFT"]))
  ∧ ∀ sym,
      Controller.history (searched Example.ten_searches [sym])
      = take 10 (sym :: filter (λ h, h ≠ sym)
                          (Controller.history Example.ten_searches)).
Proof.
  apply (history_bounded_distinct Example.ten_searches ["MSFT"; "C"; "MSFT"]).
  - apply (bool_decide_unpack _). vm_compute. exact I.
  - simpl. lia.
Defined.

(** ** Favorites *)

Lemma toggled_favorites (st : Controller.State) (sym : string) :
  Controller.favorites (toggled st sym)
  = if bool_decide (sym ∈ Controller.favorites st)
    then filter (λ f, f ≠ sym) (Controller.favorites st)
    else Controller.favorites st ++ [sym].
Proof.
  unfold toggled, Controller.toggleFavorite, Controller.includes.
  by destruct (bool_decide (sym ∈ Controller.favorites st)).
Qed.

(** C8. Toggling a symbol twice leaves its membership in the favorites as
    it was; one toggle removes a symbol that is present and adds one that
    is absent, and does not change the membership of any other symbol. *)
Theorem toggle_twice_restores (st : Controller.State) (sym : string) :
  (sym ∈ Controller.favorites (toggled (toggled st sym) sym)
   ↔ sym ∈ Controller.favorites st)
  ∧ (sym ∈ Controller.favorites st → sym ∉ Controller.favorites (toggled st sym))
  ∧ (sym ∉ Controller.favorites st → sym ∈ Controller.favorites (toggled st sym))
  ∧ ∀ other, other ≠ sym →
      (other ∈ Controller.favorites (toggled st sym)
       ↔ other ∈ Controller.favorites st).
Proof.
  assert (Hoff : ∀ s, sym ∈ Controller.favorites s →
                      sym ∉ Controller.favorites (toggled s sym)).
  { intros s Hin. rewrite toggled_favorites, bool_decide_eq_true_2 by done.
    rewrite list_elem_of_filter. intros [Hne _]. by apply Hne. }
  assert (Hon : ∀ s, sym ∉ Controller.favorites s →
                     sym ∈ Controller.favorites (toggled s sym)).
  { intros s Hout. rewrite toggled_favorites, bool_decide_eq_false_2 by done.
    set_solver. }
  split_and!; [|apply Hoff|apply Hon|].
  - destruct (decide (sym ∈ Controller.favorites st)) as [Hin|Hout].
    + split; [done|]. intros _. by apply Hon, Hoff.
    + split; [|done]. intros Hin2. exfalso.
      apply (Hoff (toggled st sym)); [by apply Hon|done].
  - intros other Hne. rewrite toggled_favorites.
    case_bool_decide.
    + rewrite list_elem_of_filter. naive_solver.
    + set_solver.
Qed.

(** ** Fetching with an empty symbol *)

Lemma empty_symbol_events (fetch : string → Http.result) :
  events (Controller.fetchStock "" fetch)
  = [Controller.SetError (JStr ""); Controller.SetStockData None;
     Controller.SetMultiDayData [];
     Controller.SetError (JStr "Please enter a stock symbol")].
Proof. reflexivity. Qed.

Lemma length_zero_empty (s : string) : String.length s = 0%nat → s = "".
Proof. by destruct s. Qed.

(** C6. A call of Fetch with a symbol of length 0 ends on the early
    [return] with the empty-symbol message in the error cell, and sends no
    request to the gateway. *)
Theorem empty_symbol_rejected (st : Controller.State)
    (fetch : string → Http.result) :
  String.length (Controller.symbol st) = 0%nat →
  let call := Controller.fetchStock (Controller.symbol st) fetch in
  outcome call = Return
  ∧ Controller.error (fetched st fetch) = JStr "Please enter a stock symbol"
  ∧ ∀ url, Controller.HttpGet url ∉ events call.
Proof.
  intros Hlen%length_zero_empty call. unfold fetched. subst call.
  rewrite Hlen. split_and!; [reflexivity..|].
  intros url. rewrite empty_symbol_events. set_solver.
Qed.

Lemma empty_symbol_rejected_witness :
  let call := Controller.fetchStock (Controller.symbol Example.ten_searches)
                (Example.replies 200 Example.two_days) in
  outcome call = Return
  ∧ Controller.error (fetched Example.ten_searches
                        (Example.replies 200 Example.two_days))
    = JStr "Please enter a stock symbol"
  ∧ ∀ url, Controller.HttpGet url ∉ events call.
Proof.
  apply (empty_symbol_rejected Example.ten_searches
           (Example.replies 200 Example.two_days)).
  reflexivity.
Defined.

(** C9. Every call of Fetch starts by clearing the error, the snapshot and
    the series, before it looks at the symbol. So a call with an empty
    symbol leaves no snapshot and an empty series, whatever was displayed,
    and it never calls [setLoading]: the loading flag is as it was. *)
Theorem fetch_clears_before_validation (st : Controller.State)
    (fetch : string → Http.result) :
  let call := Controller.fetchStock (Controller.symbol st) fetch in
  (∃ rest,
      events call
      = Controller.SetError (JStr "") :: Controller.SetStockData None
          :: Controller.SetMultiDayData [] :: rest)
  ∧ (String.length (Controller.symbol st) = 0%nat →
     Controller.stockData (fetched st fetch) = None
     ∧ Controller.multiDayData (fetched st fetch) = []
     ∧ Controller.loading (fetched st fetch) = Controller.loading st
     ∧ ∀ b, Controller.SetLoading b ∉ events call).
Proof.
  intros call. split.
  - subst call. unfold Controller.fetchStock.
    destruct (negb (JS.truthy (Some (JStr (Controller.symbol st))))).
    + eexists. reflexivity.
    + cbn. match goal with
           | |- context [try_catch ?b ?h] => destruct (try_catch b h) as [es [| |]]
           end; eexists; reflexivity.
  - intros Hlen%length_zero_empty. unfold fetched. subst call.
    rewrite Hlen. split_and!; [reflexivity..|].
    intros b. rewrite empty_symbol_events. set_solver.
Qed.

(** ** The gateway *)

Lemma truthy_string (s : string) : s ≠ "" → JS.truthy (Some (JStr s)) = true.
Proof. intros Hne. simpl. by apply negb_true_iff, String.eqb_neq. Qed.

(** With a symbol and a key, the handler is its [try] statement. *)
Lemma handler_forwards (symbol API_KEY : string) (fetch : string → Http.result) :
  symbol ≠ "" → API_KEY ≠ "" →
  Gateway.handler (Gateway.QString symbol) (Some API_KEY) fetch
  = try_catch
      (response ← lift (Http.await (fetch (Gateway.endpoint symbol API_KEY)));
       Gateway.classify response)
      (emit (Gateway.Log "Fetch failed:");;
       emit (Gateway.Send 500 (Gateway.error_body (Some (JStr "Failed to fetch data"))))).
Proof.
  intros Hs Hk. unfold Gateway.handler.
  by rewrite !truthy_string.
Qed.

(** C3, as the code has it. When the provider answers with a status [s]
    outside 200..299 and body text [t], the gateway answers with status [s]
    and the body [{error: "Alpha Vantage error: " + t}]: the text is
    prefixed, not passed as it is. When the request itself fails, or the
    body cannot be read, it answers 500 with [{error: "Failed to fetch
    data"}]. *)
Theorem upstream_failure_reply (symbol API_KEY : string)
    (fetch : string → Http.result) :
  symbol ≠ "" → API_KEY ≠ "" →
  let reply :=
    Gateway.sent (Gateway.handler (Gateway.QString symbol) (Some API_KEY) fetch) in
  let upstream := fetch (Gateway.endpoint symbol API_KEY) in
  (∀ r t, upstream = Http.Resolves r → Http.ok r = false →
          Http.text r = Some t →
          reply = [(Http.status r,
                    Gateway.error_body (Some (JStr ("Alpha Vantage error: " +:+ t))))])
  ∧ (∀ r, upstream = Http.Resolves r → Http.ok r = false →
          Http.text r = None →
          reply = [(500, Gateway.error_body (Some (JStr "Failed to fetch data")))])
  ∧ (upstream = Http.Rejects →
     reply = [(500, Gateway.error_body (Some (JStr "Failed to fetch data")))]).
Proof.
  intros Hs Hk reply upstream. subst reply upstream.
  rewrite handler_forwards by done. split_and!.
  - intros r t -> Hok Ht. unfold Gateway.classify. cbn.
    rewrite Hok, Ht. reflexivity.
  - intros r -> Hok Ht. unfold Gateway.classify. cbn.
    rewrite Hok, Ht. reflexivity.
  - intros ->. reflexivity.
Qed.

Lemma upstream_failure_reply_witness :
  let reply :=
    Gateway.sent (Gateway.handler (Gateway.QString "IBM") (Some "demo")
                    (Example.fails 503 "down")) in
  let upstream := Example.fails 503 "down" (Gateway.endpoint "IBM" "demo") in
  (∀ r t, upstream = Http.Resolves r → Http.ok r = false →
          Http.text r = Some t →
          reply = [(Http.status r,
                    Gateway.error_body (Some (JStr ("Alpha Vantage error: " +:+ t))))])
  ∧ (∀ r, upstream = Http.Resolves r → Http.ok r = false →
          Http.text r = None →
          reply = [(500, Gateway.error_body (Some (JStr "Failed to fetch data")))])
  ∧ (upstream = Http.Rejects →
     reply = [(500, Gateway.error_body (Some (JStr "Failed to fetch data")))]).
Proof.
  apply (upstream_failure_reply "IBM" "demo" (Example.fails 503 "down"));
    discriminate.
Defined.

(** C3, as stated, fails: for status 503 and body text [down] the body of
    the answer is not [{error: "down"}]. *)
Lemma upstream_text_is_prefixed :
  Gateway.sent (Gateway.handler (Gateway.QString "IBM") (Some "demo")
                  (Example.fails 503 "down"))
  = [(503, Gateway.error_body (Some (JStr "Alpha Vantage error: down")))]
  ∧ Gateway.sent (Gateway.handler (Gateway.QString "IBM") (Some "demo")
                    (Example.fails 503 "down"))
    ≠ [(503, Gateway.error_body (Some (JStr "down")))].
Proof.
  split; [reflexivity|].
  intros Heq. vm_compute in Heq. discriminate Heq.
Qed.

(** The own property [k] of a value that is not [null]. *)
Lemma get_prop_total (data : json) (k : string) :
  data ≠ JNull → ∃ v, JS.get_prop data k = Normal v.
Proof. destruct data; intros Hne; try done; eexists; reflexivity. Qed.

(** C5, as the code has it. A payload with a success status that is not
    [null] is classified in this order: a truthy [Error Message] gives 500
    with [{error: message}]; otherwise a truthy [Note] gives 429 with
    [{error: note}]; otherwise 200 with the payload as it is. The payload
    [null] gives 500 with the generic failure message. *)
Theorem payload_classification (symbol API_KEY : string)
    (fetch : string → Http.result) (r : Http.Response) (data : json) :
  symbol ≠ "" → API_KEY ≠ "" →
  fetch (Gateway.endpoint symbol API_KEY) = Http.Resolves r →
  Http.ok r = true →
  Http.json_body r = Some data →
  let reply :=
    Gateway.sent (Gateway.handler (Gateway.QString symbol) (Some API_KEY) fetch) in
  (data = JNull →
   reply = [(500, Gateway.error_body (Some (JStr "Failed to fetch data")))])
  ∧ (data ≠ JNull →
     ∃ err note,
       JS.get_prop data "Error Message" = Normal err
       ∧ JS.get_prop data "Note" = Normal note
       ∧ (JS.truthy err = true → reply = [(500, Gateway.error_body err)])
       ∧ (JS.truthy err = false → JS.truthy note = true →
          reply = [(429, Gateway.error_body note)])
       ∧ (JS.truthy err = false → JS.truthy note = false →
          reply = [(200, data)])).
Proof.
  intros Hs Hk Hfetch Hok Hdata reply. subst reply.
  rewrite handler_forwards by done. rewrite Hfetch. split.
  - intros ->. unfold Gateway.classify. cbn. rewrite Hok, Hdata. reflexivity.
  - intros Hne.
    destruct (get_prop_total data "Error Message" Hne) as [err Herr].
    destruct (get_prop_total data "Note" Hne) as [note Hnote].
    exists err, note. split_and!; [done..| | |].
    + intros Ht. unfold Gateway.classify. cbn.
      rewrite Hok, Hdata. cbn. rewrite Herr. cbn. rewrite Ht. reflexivity.
    + intros Hf Ht. unfold Gateway.classify. cbn.
      rewrite Hok, Hdata. cbn. rewrite Herr. cbn. rewrite Hf. cbn.
      rewrite Hnote. cbn. rewrite Ht. reflexivity.
    + intros Hf Hf'. unfold Gateway.classify. cbn.
      rewrite Hok, Hdata. cbn. rewrite Herr. cbn. rewrite Hf. cbn.
      rewrite Hnote. cbn. rewrite Hf'. reflexivity.
Qed.

(** The example of C5: the payload [{"Note": "rate limited"}] is answered
    with 429 and [{"error": "rate limited"}]. *)
Lemma payload_classification_witness :
  Gateway.sent (Gateway.handler (Gateway.QString "IBM") (Some "demo")
                  (Example.replies 200 Example.rate_limited))
  = [(429, JObj {[ "error" := JStr "rate limited" ]})].
Proof.
  destruct (payload_classification "IBM" "demo"
              (Example.replies 200 Example.rate_limited)
              {| Http.status := 200; Http.text := None;
                 Http.json_body := Some Example.rate_limited |}
              Example.rate_limited) as [_ Hcls];
    [discriminate|discriminate|reflexivity|reflexivity|reflexivity|].
  destruct Hcls as (err & note & Herr & Hnote & _ & H429 & _); [discriminate|].
  cbn in Herr, Hnote.
  injection Herr as <-. injection Hnote as <-.
  apply H429; reflexivity.
Defined.

(** C5, as stated, fails on two payloads with status 200: [null] is
    answered with 500 and the generic message, not with 200 and the
    payload; and [{"Error Message": ""}], which has the error field, is
    answered with 200 and the payload, not with 500. *)
Lemma payload_classification_gaps :
  (Gateway.sent (Gateway.handler (Gateway.QString "IBM") (Some "demo")
                   (Example.replies 200 JNull))
   = [(500, Gateway.error_body (Some (JStr "Failed to fetch data")))]
   ∧ Gateway.sent (Gateway.handler (Gateway.QString "IBM") (Some "demo")
                     (Example.replies 200 JNull))
     ≠ [(200, JNull)])
  ∧ (Gateway.sent (Gateway.handler (Gateway.QString "IBM") (Some "demo")
                     (Example.replies 200 (JObj {[ "Error Message" := JStr "" ]})))
     = [(200, JObj {[ "Error Message" := JStr "" ]})]
     ∧ Gateway.sent (Gateway.handler (Gateway.QString "IBM") (Some "demo")
                       (Example.replies 200 (JObj {[ "Error Message" := JStr "" ]})))
       ≠ [(500, Gateway.error_body (Some (JStr "")))]).
Proof.
  split; (split; [reflexivity|]);
    intros Heq; vm_compute in Heq; discriminate Heq.
Qed.

(** ** Restoring the persisted lists *)

Section RestoreFacts.

Variable JSON_parse : string → option json.

Lemma restore_events (localStorage : gmap string string) (key : string)
    (set : json → Startup.event) :
  events (Startup.restore JSON_parse localStorage key set)
  = match localStorage !! key with
    | None => []
    | Some item =>
        if String.eqb item "" then []
        else match JSON_parse item with
             | Some v => [set v]
             | None => [set (JArr [])]
             end
    end
  ∧ outcome (Startup.restore JSON_parse localStorage key set) = Normal ().
Proof.
  unfold Startup.restore.
  destruct (localStorage !! key) as [item|]; [|done]. simpl.
  destruct (String.eqb item ""); [done|]. simpl.
  by destruct (JSON_parse item).
Qed.

Lemma mount_events (localStorage : gmap string string) :
  events (Startup.mount JSON_parse localStorage)
  = events (Startup.restoreHistory JSON_parse localStorage)
      ++ events (Startup.restoreFavorites JSON_parse localStorage)
  ∧ outcome (Startup.mount JSON_parse localStorage) = Normal ().
Proof.
  unfold Startup.mount, Startup.restoreHistory, Startup.restoreFavorites.
  destruct (restore_events localStorage "stockSearchHistory" Startup.SetHistory)
    as [_ Hh].
  destruct (restore_events localStorage "stockFavorites" Startup.SetFavorites)
    as [_ Hf].
  unfold mbind, proc_bind. rewrite Hh. simpl. by rewrite Hf.
Qed.

Lemma mounted_cells (localStorage : gmap string string) :
  Startup.history (Startup.mounted JSON_parse localStorage)
  = Startup.restored JSON_parse (localStorage !! "stockSearchHistory")
  ∧ Startup.favorites (Startup.mounted JSON_parse localStorage)
    = Startup.restored JSON_parse (localStorage !! "stockFavorites").
Proof.
  unfold Startup.mounted. rewrite (proj1 (mount_events localStorage)).
  unfold Startup.restoreHistory, Startup.restoreFavorites.
  rewrite (proj1 (restore_events localStorage "stockSearchHistory" _)).
  rewrite (proj1 (restore_events localStorage "stockFavorites" _)).
  unfold Startup.restored.
  destruct (localStorage !! "stockSearchHistory") as [h|];
    destruct (localStorage !! "stockFavorites") as [f|]; simpl;
    repeat match goal with
           | |- context [String.eqb ?s ""] => destruct (String.eqb s "")
           | |- context [JSON_parse ?s] => destruct (JSON_parse s)
           end; done.
Qed.

(** C10. After the mount, a list whose stored value is absent or is not
    parseable JSON is the empty list, and the mount completes normally:
    nothing is thrown to the page. Each list depends on the value stored
    under its own key only, so a parse failure of one does not affect
    the other. *)
Theorem restore_defaults_to_empty (localStorage : gmap string string) :
  (Startup.unreadable JSON_parse localStorage "stockSearchHistory" →
   Startup.history (Startup.mounted JSON_parse localStorage) = JArr [])
  ∧ (Startup.unreadable JSON_parse localStorage "stockFavorites" →
     Startup.favorites (Startup.mounted JSON_parse localStorage) = JArr [])
  ∧ outcome (Startup.mount JSON_parse localStorage) = Normal ()
  ∧ (∀ other : gmap string string,
       other !! "stockFavorites" = localStorage !! "stockFavorites" →
       Startup.favorites (Startup.mounted JSON_parse other)
       = Startup.favorites (Startup.mounted JSON_parse localStorage))
  ∧ (∀ other : gmap string string,
       other !! "stockSearchHistory" = localStorage !! "stockSearchHistory" →
       Startup.history (Startup.mounted JSON_parse other)
       = Startup.history (Startup.mounted JSON_parse localStorage)).
Proof.
  split_and!.
  - unfold Startup.unreadable. rewrite (proj1 (mounted_cells localStorage)).
    unfold Startup.restored.
    destruct (localStorage !! "stockSearchHistory") as [h|]; [|done].
    intros ->. by destruct (String.eqb h "").
  - unfold Startup.unreadable. rewrite (proj2 (mounted_cells localStorage)).
    unfold Startup.restored.
    destruct (localStorage !! "stockFavorites") as [f|]; [|done].
    intros ->. by destruct (String.eqb f "").
  - apply mount_events.
  - intros other Heq.
    rewrite (proj2 (mounted_cells other)), (proj2 (mounted_cells localStorage)).
    by rewrite Heq.
  - intros other Heq.
    rewrite (proj1 (mounted_cells other)), (proj1 (mounted_cells localStorage)).
    by rewrite Heq.
Qed.

End RestoreFacts.

(** ** Dates: distinct keys, sorted newest first *)

Lemma index_key_inj : Inj (=) (=) JS.index_key.
Proof. unfold JS.index_key. apply _. Qed.

Lemma index_keys_NoDup (n : nat) : NoDup (JS.index_keys n).
Proof.
  unfold JS.index_keys. apply NoDup_fmap_2; [apply index_key_inj|apply NoDup_seq].
Qed.

Lemma Object_keys_NoDup (v : json) (keys : list string) :
  JS.Object_keys v = Normal keys → NoDup keys.
Proof.
  destruct v; simpl; intros Heq; simplify_eq.
  - constructor.
  - constructor.
  - apply index_keys_NoDup.
  - apply index_keys_NoDup.
  - apply NoDup_fst_map_to_list.
Qed.

Lemma dated_entries_NoDup (ts : json) : NoDup (dated_entries ts).
Proof.
  unfold dated_entries.
  destruct (JS.Object_keys ts) eqn:Hk; eauto using Object_keys_NoDup, NoDup_nil_2.
Qed.

Lemma newest_first_Permutation (keys : list string) :
  newest_first keys ≡ₚ keys.
Proof.
  unfold newest_first, JS.sort.
  by rewrite reverse_Permutation, merge_sort_Permutation.
Qed.

Lemma newest_first_length (keys : list string) :
  length (newest_first keys) = length keys.
Proof. by rewrite newest_first_Permutation. Qed.

Lemma newest_first_elem_of (keys : list string) (k : string) :
  k ∈ newest_first keys ↔ k ∈ keys.
Proof. by rewrite newest_first_Permutation. Qed.

Lemma older_intro (a b : string) : String.le a b → a ≠ b → older a b.
Proof.
  intros Hle Hne. split; [done|].
  intros Hge. apply Hne. by apply (anti_symm String.le).
Qed.

Lemma StronglySorted_strict {A} (R : relation A) (l : list A) :
  StronglySorted R l → NoDup l → StronglySorted (λ a b, R a b ∧ a ≠ b) l.
Proof.
  induction 1 as [|x l Hsorted IH Hall]; intros Hnodup; [constructor|].
  apply NoDup_cons in Hnodup as [Hx Hl].
  constructor; [by apply IH|].
  rewrite Forall_forall in Hall |- *. intros y Hy. split; [by apply Hall|].
  intros ->. done.
Qed.

Lemma StronglySorted_weaken {A} (R S : relation A) (l : list A) :
  (∀ a b, R a b → S a b) → StronglySorted R l → StronglySorted S l.
Proof.
  intros HRS. induction 1 as [|x l Hsorted IH Hall]; constructor; [done|].
  eapply Forall_impl; [exact Hall|]. intros y. apply HRS.
Qed.

(** Every date of the list is strictly older than the dates before it. *)
Lemma newest_first_sorted (keys : list string) :
  NoDup keys → StronglySorted (flip older) (newest_first keys).
Proof.
  intros Hnodup.
  assert (Hsorted : StronglySorted (flip String.le) (newest_first keys)).
  { apply Sorted_StronglySorted; [apply _|].
    unfold newest_first, JS.sort.
    apply Sorted_reverse, Sorted_merge_sort, _. }
  apply StronglySorted_strict in Hsorted;
    [|by rewrite newest_first_Permutation].
  eapply StronglySorted_weaken; [|exact Hsorted].
  intros a b [Hle Hne]. apply older_intro; [exact Hle|done].
Qed.

(** ** Parsing the time series *)

Lemma bind_Normal {A B} (m : completion A) (f : A → completion B) (b : B) :
  m ≫= f = Normal b → ∃ a, m = Normal a ∧ f a = Normal b.
Proof. destruct m as [a| |]; simpl; [eauto|done..]. Qed.

Lemma mapM_Normal {A B} (f : A → completion B) (l : list A) (bs : list B) :
  mapM f l = Normal bs → Forall2 (λ a b, f a = Normal b) l bs.
Proof.
  revert bs. induction l as [|a l IH]; intros bs; simpl.
  - intros [= <-]. constructor.
  - intros (b & Hb & Hrest)%bind_Normal.
    apply bind_Normal in Hrest as (bs' & Hbs' & [= <-]).
    constructor; [done|]. by apply IH.
Qed.

Ltac invert_binds H :=
  repeat (apply bind_Normal in H as (? & ? & H)).

Lemma dayBar_date (ts : json) (d : string) (bar : DayBar.t) :
  Controller.dayBar ts d = Normal bar → DayBar.date bar = d.
Proof.
  unfold Controller.dayBar. intros H. invert_binds H. by injection H as <-.
Qed.

Lemma dayBars_dates (ts : json) (dates : list string) (bars : list DayBar.t) :
  mapM (Controller.dayBar ts) dates = Normal bars →
  DayBar.date <$> bars = dates.
Proof.
  intros Hall%mapM_Normal.
  induction Hall as [|d bar dates bars Hbar _ IH]; [done|].
  rewrite fmap_cons. f_equal; [by eapply dayBar_date|exact IH].
Qed.

(** What a successful parse computed, in terms of the dates of the series
    newest first. *)
Lemma parseSeries_inv (ts : json) (snap : StockData.t) (bars : list DayBar.t) :
  Controller.parseSeries ts = Normal (snap, bars) →
  ∃ latest rest,
    newest_first (dated_entries ts) = latest :: rest
    ∧ StockData.date snap = latest
    ∧ mapM (Controller.dayBar ts) (take 10 (latest :: rest)) = Normal bars
    ∧ match rest with
      | [] => StockData.prevClose snap = None
      | d :: _ =>
          ∃ p, close_on ts d = Normal p ∧ StockData.prevClose snap = Some p
      end.
Proof.
  unfold Controller.parseSeries, Controller.sortedDates, dated_entries.
  intros H.
  apply bind_Normal in H as (dates & Hdates & H).
  apply bind_Normal in Hdates as (keys & Hkeys & [= <-]).
  rewrite Hkeys. fold (newest_first keys) in *.
  destruct (newest_first keys) as [|latest rest] eqn:Hsorted; [done|].
  simpl in H. invert_binds H.
  rewrite (slice_prefix 10) in *.
  injection H as <- <-. exists latest, rest. split_and!; [done..|].
  destruct rest as [|d rest]; simpl in *.
  - match goal with H : mret None = Normal _ |- _ => by injection H as <- end.
  - match goal with
    | H : _ ≫= _ = Normal _ |- _ =>
        apply bind_Normal in H as (e & He & H);
        apply bind_Normal in H as (p & Hp & [= <-])
    end.
    exists p. split; [|done]. unfold close_on. by rewrite He.
Qed.

#[local] Arguments JS.truthy : simpl never.

(** A call of Fetch leaves a snapshot only on its success path: the gateway
    served a time series, the parse succeeded, and the snapshot, the series
    and the history are what that path sets. *)
Lemma fetch_success (st : Controller.State) (fetch : string → Http.result)
    (snap : StockData.t) :
  Controller.stockData (fetched st fetch) = Some snap →
  ∃ ts bars,
    served_series fetch (Controller.symbol st) = Some ts
    ∧ Controller.parseSeries ts = Normal (snap, bars)
    ∧ Controller.multiDayData (fetched st fetch) = bars
    ∧ Controller.history (fetched st fetch)
      = Controller.newHist (Controller.symbol st) (Controller.history st).
Proof.
  unfold fetched, served_series, Controller.fetchStock, Controller.http_get.
  generalize (Controller.symbol st) as symbol. intros symbol.
  destruct (JS.truthy (Some (JStr symbol))); cbn; [|discriminate].
  destruct (fetch ("/api/stock?symbol=" +:+ symbol)) as [|res]; cbn;
    [discriminate|].
  destruct (Http.json_body res) as [data|]; cbn; [|discriminate].
  destruct (Http.ok res); cbn.
  - destruct (JS.get_prop data "Time Series (Daily)") as [[ts|]| |]; cbn;
      try discriminate.
    destruct (JS.truthy (Some ts)); cbn; [|discriminate].
    destruct (Controller.parseSeries ts) as [[snap' bars]| |] eqn:Hparse; cbn;
      try discriminate.
    intros [= <-]. exists ts, bars. done.
  - destruct (JS.get_prop data "Error Message") as [msg| |]; cbn; discriminate.
Qed.

(** C1. After a successful Fetch, [prevClose] is [null] exactly when the
    time series has fewer than 2 dated entries; with 2 entries or more it
    is the close of the second most recent date: the date that is older
    than the latest one and not older than any other. *)
Theorem previous_close_spec (st : Controller.State)
    (fetch : string → Http.result) (snap : StockData.t) :
  Controller.stockData (fetched st fetch) = Some snap →
  ∃ ts,
    served_series fetch (Controller.symbol st) = Some ts
    ∧ (StockData.prevClose snap = None ↔ (length (dated_entries ts) < 2)%nat)
    ∧ ((2 ≤ length (dated_entries ts))%nat →
       ∃ second p,
         newest_first (dated_entries ts) !! 1%nat = Some second
         ∧ second ∈ dated_entries ts
         ∧ StockData.date snap ∈ dated_entries ts
         ∧ older second (StockData.date snap)
         ∧ (∀ k, k ∈ dated_entries ts →
                 k = StockData.date snap ∨ String.le k second)
         ∧ close_on ts second = Normal p
         ∧ StockData.prevClose snap = Some p).
Proof.
  intros (ts & bars & Hserved & Hparse & _)%fetch_success.
  exists ts. split; [done|].
  apply parseSeries_inv in Hparse as (latest & rest & Hdates & Hdate & _ & Hprev).
  pose proof (newest_first_length (dated_entries ts)) as Hlen.
  pose proof (newest_first_sorted _ (dated_entries_NoDup ts)) as Hsorted.
  rewrite Hdates in Hlen, Hsorted. simpl in Hlen.
  destruct rest as [|second rest].
  - simpl in Hlen. split; [split; [lia|done]|lia].
  - destruct Hprev as (p & Hclose & Hprev). simpl in Hlen.
    split; [rewrite Hprev; split; [done|lia]|].
    intros _. exists second, p.
    apply StronglySorted_inv in Hsorted as [Hrest Hlatest].
    apply StronglySorted_inv in Hrest as [_ Hsecond].
    rewrite Hdates, Hdate. split_and!; [done| | | | |done|done].
    + apply newest_first_elem_of. rewrite Hdates. set_solver.
    + apply newest_first_elem_of. rewrite Hdates. set_solver.
    + by apply Forall_cons in Hlatest as [? _].
    + intros k Hk%newest_first_elem_of. rewrite Hdates in Hk.
      apply elem_of_cons in Hk as [->|Hk]; [by left|right].
      apply elem_of_cons in Hk as [->|Hk]; [done|].
      rewrite Forall_forall in Hsecond. by apply Hsecond.
Qed.

Lemma previous_close_spec_witness :
  ∃ ts,
    served_series (Example.replies 200 Example.two_days)
      (Controller.symbol (Example.typed "IBM")) = Some ts
    ∧ (StockData.prevClose Example.latest = None
       ↔ (length (dated_entries ts) < 2)%nat)
    ∧ ((2 ≤ length (dated_entries ts))%nat →
       ∃ second p,
         newest_first (dated_entries ts) !! 1%nat = Some second
         ∧ second ∈ dated_entries ts
         ∧ StockData.date Example.latest ∈ dated_entries ts
         ∧ older second (StockData.date Example.latest)
         ∧ (∀ k, k ∈ dated_entries ts →
                 k = StockData.date Example.latest ∨ String.le k second)
         ∧ close_on ts second = Normal p
         ∧ StockData.prevClose Example.latest = Some p).
Proof.
  apply (previous_close_spec (Example.typed "IBM")
           (Example.replies 200 Example.two_days) Example.latest).
  vm_compute. reflexivity.
Defined.

(** C7. After a successful Fetch over a time series of [n] dated entries,
    the series displayed has exactly [min 10 n] bars; their dates are the
    first dates of the series sorted in descending order: each bar is
    strictly older than the bars before it, every bar is an entry of the
    series, and every entry left out is older than every bar. *)
Theorem recent_series_window (st : Controller.State)
    (fetch : string → Http.result) (snap : StockData.t) :
  Controller.stockData (fetched st fetch) = Some snap →
  ∃ ts,
    served_series fetch (Controller.symbol st) = Some ts
    ∧ let dates := DayBar.date <$> Controller.multiDayData (fetched st fetch) in
      length (Controller.multiDayData (fetched st fetch))
      = (10 `min` length (dated_entries ts))%nat
      ∧ dates = take 10 (newest_first (dated_entries ts))
      ∧ StronglySorted (flip older) dates
      ∧ (∀ d, d ∈ dates → d ∈ dated_entries ts)
      ∧ (∀ k d, k ∈ dated_entries ts → k ∉ dates → d ∈ dates → older k d).
Proof.
  intros (ts & bars & Hserved & Hparse & -> & _)%fetch_success.
  exists ts. split; [done|].
  apply parseSeries_inv in Hparse as (latest & rest & Hdates & _ & Hbars & _).
  apply dayBars_dates in Hbars. rewrite <- Hdates in Hbars.
  pose proof (newest_first_sorted _ (dated_entries_NoDup ts)) as Hsorted.
  rewrite <- (take_drop 10 (newest_first (dated_entries ts))) in Hsorted.
  cbv zeta. rewrite Hbars. split_and!.
  - rewrite <- (length_fmap DayBar.date), Hbars, length_take.
    by rewrite newest_first_length.
  - done.
  - by apply StronglySorted_app_1_l in Hsorted.
  - intros d Hd. apply newest_first_elem_of.
    rewrite <- (take_drop 10 (newest_first (dated_entries ts))).
    apply elem_of_app. by left.
  - intros k d Hk Hout Hd.
    apply newest_first_elem_of in Hk.
    rewrite <- (take_drop 10 (newest_first (dated_entries ts))) in Hk.
    apply elem_of_app in Hk as [Hk|Hk]; [done|].
    by apply (StronglySorted_app_1_elem_of _ _ _ d k) in Hsorted.
Qed.

Lemma recent_series_window_witness :
  ∃ ts,
    served_series (Example.replies 200 Example.two_days)
      (Controller.symbol (Example.typed "IBM")) = Some ts
    ∧ let dates :=
        DayBar.date <$> Controller.multiDayData
          (fetched (Example.typed "IBM") (Example.replies 200 Example.two_days)) in
      length (Controller.multiDayData
                (fetched (Example.typed "IBM")
                   (Example.replies 200 Example.two_days)))
      = (10 `min` length (dated_entries ts))%nat
      ∧ dates = take 10 (newest_first (dated_entries ts))
      ∧ StronglySorted (flip older) dates
      ∧ (∀ d, d ∈ dates → d ∈ dated_entries ts)
      ∧ (∀ k d, k ∈ dated_entries ts → k ∉ dates → d ∈ dates → older k d).
Proof.
  apply (recent_series_window (Example.typed "IBM")
           (Example.replies 200 Example.two_days) Example.latest).
  vm_compute. reflexivity.
Defined.

(** ** The number model on concrete inputs *)

Example StringToNumber_literals :
  Number.StringToNumber "9.5" = 9.5%float
  ∧ Number.StringToNumber "11" = 11%float
  ∧ Number.StringToNumber " 1e3 " = 1000%float
  ∧ Number.StringToNumber "-.5" = (-0.5)%float
  ∧ Number.StringToNumber "0x1F" = 31%float
  ∧ Number.StringToNumber "" = 0%float
  ∧ Number.StringToNumber "1e400" = infinity
  ∧ Number.StringToNumber "12px" = nan
  ∧ Number.StringToNumber "9007199254740993" = 9007199254740992%float.
Proof. by vm_compute. Qed.

Example ToNumber_values :
  Number.ToNumber None = nan
  ∧ Number.ToNumber (Some JNull) = 0%float
  ∧ Number.ToNumber (Some (JBool true)) = 1%float
  ∧ Number.ToNumber (Some (JArr [])) = 0%float
  ∧ Number.ToNumber (Some (JArr [JStr "7"])) = 7%float
  ∧ Number.ToNumber (Some (JArr [JNum 1; JNum 2])) = nan
  ∧ Number.ToNumber (Some (JObj ∅)) = nan.
Proof. by vm_compute. Qed.

Example toFixed_values :
  Number.toFixed 1.5 2 = "1.50"
  ∧ Number.toFixed 0.125 2 = "0.13"
  ∧ Number.toFixed (-0.125) 2 = "-0.13"
  ∧ Number.toFixed (-0) 2 = "0.00"
  ∧ Number.toFixed 2.5 0 = "3"
  ∧ Number.toFixed 1e20 2 = "100000000000000000000.00"
  ∧ Number.toFixed 1e21 2 = "1e+21"
  ∧ Number.toFixed nan 2 = "NaN"
  ∧ Number.toFixed neg_infinity 2 = "-Infinity".
Proof. by vm_compute. Qed.

(** ** Printing with two decimals *)

Section FixedPoint.

Import Number.
#[local] Open Scope nat_scope.

Lemma is_digit_pretty_char (d : N) : is_digit (pretty_N_char d) = true.
Proof. unfold pretty_N_char. by repeat case_match. Qed.

Lemma all_digits_pretty_go (x : N) (s : string) :
  all_digits s = true → all_digits (pretty_N_go x s) = true.
Proof.
  revert s. induction (N.lt_wf_0 x) as [x _ IH]; intros s Hs.
  destruct (decide (x = 0)%N) as [->|Hpos]; [by rewrite pretty_N_go_0|].
  rewrite pretty_N_go_step by lia.
  apply IH; [apply N.div_lt; lia|].
  simpl. by rewrite is_digit_pretty_char.
Qed.

Lemma length_pretty_go (x : N) (s : string) :
  String.length s ≤ String.length (pretty_N_go x s).
Proof.
  revert s. induction (N.lt_wf_0 x) as [x _ IH]; intros s.
  destruct (decide (x = 0)%N) as [->|Hpos]; [by rewrite pretty_N_go_0|].
  rewrite pretty_N_go_step by lia.
  etrans; [|apply IH, N.div_lt; lia]. simpl. lia.
Qed.

Lemma digits_shape (n : Z) :
  all_digits (digits n) = true ∧ 1 ≤ String.length (digits n).
Proof.
  unfold digits. generalize (Z.to_N n) as x. intros x.
  change (pretty x) with (pretty_N x). unfold pretty_N.
  destruct (decide (x = 0)%N) as [->|Hpos]; [done|].
  split; [by apply all_digits_pretty_go|].
  rewrite pretty_N_go_step by lia.
  etrans; [|apply length_pretty_go]. simpl. lia.
Qed.

Lemma all_digits_app (a b : string) :
  all_digits (a +:+ b) = all_digits a && all_digits b.
Proof. induction a as [|c a IH]; simpl; [done|]. by rewrite IH, andb_assoc. Qed.

Lemma length_app (a b : string) :
  String.length (a +:+ b) = String.length a + String.length b.
Proof. induction a as [|c a IH]; simpl; [done|]. by rewrite IH. Qed.

Lemma zeros_shape (k : nat) :
  all_digits (zeros k) = true ∧ String.length (zeros k) = k.
Proof. induction k as [|k [IH1 IH2]]; simpl; [done|]. by rewrite IH1, IH2. Qed.

Lemma all_digits_substring (s : string) (n m : nat) :
  all_digits s = true → all_digits (String.substring n m s) = true.
Proof.
  revert n m. induction s as [|c s IH]; intros [|n] [|m]; simpl; try done.
  - intros [-> Hs]%andb_true_iff. by apply IH.
  - intros [_ Hs]%andb_true_iff. by apply IH.
  - intros [_ Hs]%andb_true_iff. by apply IH.
Qed.

Lemma length_substring (s : string) (n m : nat) :
  n + m ≤ String.length s → String.length (String.substring n m s) = m.
Proof.
  revert n m. induction s as [|c s IH]; intros [|n] [|m]; simpl; try done; try lia.
  - intros Hlen. rewrite (IH 0 m) by lia. done.
  - intros Hlen. apply IH. lia.
  - intros Hlen. apply IH. lia.
Qed.

(** The shape of a fixed-point print with two decimals. *)
Lemma fixed_point_shape (n : Z) :
  ∃ ip fp,
    fixed_point n 2 = ip +:+ "." +:+ fp
    ∧ all_digits ip = true ∧ 1 ≤ String.length ip
    ∧ all_digits fp = true ∧ String.length fp = 2.
Proof.
  unfold fixed_point.
  destruct (digits_shape n) as [Hdigits Hlen].
  set (m := if String.length (digits n) <=? 2
            then zeros (2 + 1 - String.length (digits n)) +:+ digits n
            else digits n).
  assert (Hm : all_digits m = true ∧ 3 ≤ String.length m).
  { subst m. destruct (Nat.leb_spec (String.length (digits n)) 2) as [Hle|Hgt].
    - destruct (zeros_shape (2 + 1 - String.length (digits n))) as [Hz Hzl].
      rewrite all_digits_app, length_app, Hz, Hzl, Hdigits. split; [done|lia].
    - split; [done|lia]. }
  destruct Hm as [Hm Hml]. simpl.
  exists (String.substring 0 (String.length m - 2) m),
    (String.substring (String.length m - 2) 2 m).
  split_and!.
  - done.
  - by apply all_digits_substring.
  - rewrite length_substring; lia.
  - by apply all_digits_substring.
  - rewrite length_substring; lia.
Qed.

Lemma digit_not_point (c : ascii) : is_digit c = true → c ≠ "."%char.
Proof. intros Hc ->. discriminate Hc. Qed.

Lemma digit_not_minus (c : ascii) : is_digit c = true → c ≠ "-"%char.
Proof. intros Hc ->. discriminate Hc. Qed.

Lemma split_at_point_digits (ip fp : string) :
  all_digits ip = true → split_at_point (ip +:+ "." +:+ fp) = Some (ip, fp).
Proof.
  induction ip as [|c ip IH]; [done|].
  intros [Hc Hip]%andb_true_iff.
  change (String c ip +:+ "." +:+ fp) with (String c (ip +:+ "." +:+ fp)).
  simpl. rewrite bool_decide_eq_false_2 by by apply digit_not_point.
  by rewrite IH.
Qed.

Lemma two_decimals_shape (negative : bool) (ip fp : string) :
  all_digits ip = true → 1 ≤ String.length ip →
  all_digits fp = true → String.length fp = 2 →
  two_decimals ((if negative then "-" else "") +:+ ip +:+ "." +:+ fp) = true.
Proof.
  intros Hip Hlen Hfp Hfl. unfold two_decimals.
  assert (Hunsigned :
    unsigned ((if negative then "-" else "") +:+ ip +:+ "." +:+ fp)
    = ip +:+ "." +:+ fp).
  { destruct negative; [done|].
    destruct ip as [|c ip]; [simpl in Hlen; lia|].
    apply andb_true_iff in Hip as [Hc _].
    change ("" +:+ String c ip +:+ "." +:+ fp) with (String c (ip +:+ "." +:+ fp)).
    simpl. by rewrite bool_decide_eq_false_2 by by apply digit_not_minus. }
  rewrite Hunsigned, split_at_point_digits by done.
  rewrite Hip, Hfp, Hfl.
  destruct ip; [simpl in Hlen; lia|done].
Qed.

Lemma toFixed_two_decimals (x : float) :
  fixable x = true → two_decimals (toFixed x 2) = true.
Proof.
  unfold fixable, toFixed.
  destruct (Prim2SF x) as [sign|sign| |sign m e]; try discriminate.
  - intros _. destruct (fixed_point_shape 0) as (ip & fp & -> & ? & ? & ? & ?).
    by apply (two_decimals_shape false).
  - intros Hsmall%negb_true_iff. rewrite Hsmall.
    destruct (fixed_point_shape (nearest_scaled m e 2))
      as (ip & fp & -> & ? & ? & ? & ?).
    by apply two_decimals_shape.
Qed.

(** The integer printed is the nearest to the value scaled by [10 ^ f],
    rounding halves up: exact when the binary exponent is not negative,
    and within half a unit otherwise. *)
Lemma nearest_scaled_bounds (m : positive) (e : Z) (f : nat) :
  let n := nearest_scaled m e f in
  let v := (Z.pos m * 10 ^ Z.of_nat f)%Z in
  ((0 ≤ e)%Z → n = (v * 2 ^ e)%Z)
  ∧ ((e < 0)%Z →
     (2 * v - 2 ^ (- e) < 2 * n * 2 ^ (- e) ≤ 2 * v + 2 ^ (- e))%Z).
Proof.
  intros n v. subst n. unfold nearest_scaled. fold v. split.
  - intros He. destruct (Z.leb_spec 0 e); [done|lia].
  - intros He. destruct (Z.leb_spec 0 e); [lia|].
    assert (Hd : (0 < 2 ^ (- e))%Z) by (apply Z.pow_pos_nonneg; lia).
    replace (2 ^ (1 - e))%Z with (2 * 2 ^ (- e))%Z
      by (rewrite <- Z.pow_succ_r by lia; f_equal; lia).
    pose proof (Z.div_mod (2 * v + 2 ^ (- e)) (2 * 2 ^ (- e))) as Hdiv.
    pose proof (Z.mod_pos_bound (2 * v + 2 ^ (- e)) (2 * 2 ^ (- e))) as Hmod.
    set (q := ((2 * v + 2 ^ (- e)) `div` (2 * 2 ^ (- e)))%Z) in *.
    set (r := ((2 * v + 2 ^ (- e)) `mod` (2 * 2 ^ (- e)))%Z) in *.
    nia.
Qed.

End FixedPoint.

(** ** The change indicator *)

(** C4, as the code has it. Without a previous close nothing is rendered.
    With one, the indicator is built from [change = close - prevClose] and
    [percent = change / prevClose * 100]: the marker and the colour follow
    the sign of [change] (up when positive, down when negative, flat
    otherwise), and both numbers are printed by [toFixed(2)], which gives
    an optional sign, digits, a point and two digits whenever the number is
    finite and below [10^21] in magnitude. For the two-day payload of the
    specification, served through the gateway, Fetch leaves the snapshot of
    2024-01-02 with close 11 and previous close 9.5, rendered as an upward
    marker, [1.50] and [15.79]. *)
Theorem change_indicator_spec :
  (∀ close, Controller.renderChange close None = None)
  ∧ (∀ close prevClose,
       let change := (close - prevClose)%float in
       let percent := (change / prevClose * 100)%float in
       ∃ view,
         Controller.renderChange close (Some prevClose) = Some view
         ∧ (PrimFloat.ltb 0 change = true →
            Controller.marker view = Controller.Up
            ∧ Controller.color view = "#16a34a")
         ∧ (PrimFloat.ltb 0 change = false → PrimFloat.ltb change 0 = true →
            Controller.marker view = Controller.Down
            ∧ Controller.color view = "#dc2626")
         ∧ (PrimFloat.ltb 0 change = false → PrimFloat.ltb change 0 = false →
            Controller.marker view = Controller.Flat
            ∧ Controller.color view = "#6b7280")
         ∧ Controller.change_text view = Number.toFixed change 2
         ∧ Controller.percent_text view = Number.toFixed percent 2
         ∧ (Number.fixable change = true →
            Number.two_decimals (Controller.change_text view) = true)
         ∧ (Number.fixable percent = true →
            Number.two_decimals (Controller.percent_text view) = true))
  ∧ (Controller.stockData
       (fetched (Example.typed "IBM")
          (Example.through_gateway "demo"
             (Example.replies 200 Example.two_days) "IBM"))
     = Some Example.latest
     ∧ StockData.date Example.latest = "2024-01-02"
     ∧ StockData.close Example.latest = 11%float
     ∧ StockData.prevClose Example.latest = Some 9.5%float
     ∧ Controller.renderChange (StockData.close Example.latest)
         (StockData.prevClose Example.latest)
       = Some {| Controller.marker := Controller.Up;
                 Controller.color := "#16a34a";
                 Controller.change_text := "1.50";
                 Controller.percent_text := "15.79" |}).
Proof.
  split; [|split].
  - done.
  - intros close prevClose change percent.
    eexists. split; [reflexivity|]. cbn -[Number.toFixed].
    fold change. fold percent. clearbody change percent. split_and!.
    + intros Hup. rewrite Hup. split; reflexivity.
    + intros Hup Hdown. rewrite Hup, Hdown. split; reflexivity.
    + intros Hup Hdown. rewrite Hup, Hdown. split; reflexivity.
    + reflexivity.
    + reflexivity.
    + apply toFixed_two_decimals.
    + apply toFixed_two_decimals.
  - split_and!; [by vm_compute|done|done|done|by vm_compute].
Qed.

(** C4, as stated, fails when the previous close is 0: for close 11 the
    percent is infinite, and it is printed as [Infinity], which is not a
    number with two decimals. *)
Lemma percent_of_zero_previous_close :
  ∃ view,
    Controller.renderChange 11 (Some 0%float) = Some view
    ∧ Controller.change_text view = "11.00"
    ∧ Controller.percent_text view = "Infinity"
    ∧ Number.two_decimals (Controller.percent_text view) = false.
Proof. eexists. split; [reflexivity|]. by vm_compute. Qed.

(** * Further properties of the code *)

(** ** The gateway on every input *)

Lemma null_or_not (data : json) : data = JNull ∨ data ≠ JNull.
Proof. destruct data; auto. Qed.

(** The paths of the handler, each with the equations that select it. *)
Ltac handler_paths symbol API_KEY fetch :=
  unfold Gateway.handler;
  destruct symbol as [|?sym|?l]; cbn; [| |];
  [|destruct (JS.truthy (Some (JStr sym))) eqn:?Hsym; cbn;
    [destruct API_KEY as [?key|]; cbn;
     [destruct (JS.truthy (Some (JStr key))) eqn:?Hkey; cbn;
      [destruct (fetch (Gateway.endpoint sym key)) as [|?r] eqn:?Hfetch; cbn;
       [|unfold Gateway.classify; destruct (Http.ok r) eqn:?Hok; cbn;
         [destruct (Http.json_body r) as [?data|] eqn:?Hbody; cbn;
          [let Hne := fresh "Hne" in
           let err := fresh "err" in
           let note := fresh "note" in
           let Herr := fresh "Herr" in
           let Hnote := fresh "Hnote" in
           destruct (null_or_not data) as [->|Hne]; cbn;
           [|destruct (get_prop_total data "Error Message" Hne) as [err Herr];
             destruct (get_prop_total data "Note" Hne) as [note Hnote];
             rewrite Herr; cbn;
             destruct (JS.truthy err) eqn:?Htruthy; cbn;
             [|rewrite Hnote; cbn;
               destruct (JS.truthy note) eqn:?Htruthy; cbn]]|]
         |destruct (Http.text r) as [?text|] eqn:?Htext; cbn]]|]|]|]|].

(** X1. Whatever the request, the key and the behaviour of the provider,
    the handler sends exactly one response. *)
Theorem handler_sends_once (symbol : Gateway.query_value)
    (API_KEY : option string) (fetch : string → Http.result) :
  length (Gateway.sent (Gateway.handler symbol API_KEY fetch)) = 1%nat.
Proof. handler_paths symbol API_KEY fetch; reflexivity. Qed.

(** X2. A request without one non-empty [symbol] value (none, several,
    or the empty string) is answered 400 with the missing-symbol message,
    and nothing is logged; the key and the provider play no part. *)
Theorem missing_symbol_rejected (symbol : Gateway.query_value)
    (API_KEY : option string) (fetch : string → Http.result) :
  (∀ s, symbol = Gateway.QString s → s = "") →
  events (Gateway.handler symbol API_KEY fetch)
  = [Gateway.Send 400
       (Gateway.error_body (Some (JStr "Missing symbol parameter")))].
Proof.
  intros Hsym. destruct symbol as [|s|l]; [reflexivity| |reflexivity].
  rewrite (Hsym s eq_refl). reflexivity.
Qed.

Lemma missing_symbol_rejected_witness :
  events (Gateway.handler (Gateway.QArray ["IBM"; "MSFT"]) (Some "demo")
            (Example.replies 200 Example.two_days))
  = [Gateway.Send 400
       (Gateway.error_body (Some (JStr "Missing symbol parameter")))].
Proof.
  apply (missing_symbol_rejected (Gateway.QArray ["IBM"; "MSFT"]) (Some "demo")
           (Example.replies 200 Example.two_days)).
  discriminate.
Defined.

(** X3. With a symbol but no key in the environment, or an empty one, the
    answer is 500 with the configuration message, whatever the provider
    would have said. *)
Theorem missing_key_rejected (symbol : string) (API_KEY : option string)
    (fetch : string → Http.result) :
  symbol ≠ "" →
  (∀ key, API_KEY = Some key → key = "") →
  Gateway.sent (Gateway.handler (Gateway.QString symbol) API_KEY fetch)
  = [(500, Gateway.error_body
             (Some (JStr "API key not set in environment variables")))].
Proof.
  intros Hsym Hkey. unfold Gateway.handler.
  rewrite truthy_string by done. cbn.
  destruct API_KEY as [key|]; [|reflexivity].
  rewrite (Hkey key eq_refl). reflexivity.
Qed.

Lemma missing_key_rejected_witness :
  Gateway.sent (Gateway.handler (Gateway.QString "IBM") None
                  (Example.replies 200 Example.two_days))
  = [(500, Gateway.error_body
             (Some (JStr "API key not set in environment variables")))].
Proof.
  apply (missing_key_rejected "IBM" None (Example.replies 200 Example.two_days));
    discriminate.
Defined.

Lemma truthy_some (v : jsval) : JS.truthy v = true → ∃ j, v = Some j.
Proof. destruct v; [eauto|discriminate]. Qed.

(** X4. An answer with status 200 is never made up: the provider answered
    with a success status, and the body sent is its JSON payload as it
    is, which has no truthy [Error Message] and no truthy [Note]. *)
Theorem ok_reply_is_payload (symbol : Gateway.query_value)
    (API_KEY : option string) (fetch : string → Http.result) (body : json) :
  (200, body) ∈ Gateway.sent (Gateway.handler symbol API_KEY fetch) →
  ∃ sym key r,
    symbol = Gateway.QString sym ∧ API_KEY = Some key
    ∧ fetch (Gateway.endpoint sym key) = Http.Resolves r
    ∧ Http.ok r = true
    ∧ Http.json_body r = Some body
    ∧ (∀ v, JS.get_prop body "Error Message" = Normal v → JS.truthy v = false)
    ∧ (∀ v, JS.get_prop body "Note" = Normal v → JS.truthy v = false).
Proof.
  handler_paths symbol API_KEY fetch;
    rewrite ?list_elem_of_singleton; try (intros [=]; fail);
    try (intros []%elem_of_nil; fail).
  - intros [= <-]. exists sym, key, r. split_and!; try done.
    + intros v. rewrite Herr. by intros [= <-].
    + intros v. rewrite Hnote. by intros [= <-].
  - intros [= Hstatus _]. unfold Http.ok in Hok. rewrite <- Hstatus in Hok.
    discriminate Hok.
Qed.

Lemma ok_reply_is_payload_witness :
  ∃ sym key r,
    Gateway.QString "IBM" = Gateway.QString sym ∧ Some "demo" = Some key
    ∧ Example.replies 200 Example.two_days (Gateway.endpoint sym key)
      = Http.Resolves r
    ∧ Http.ok r = true
    ∧ Http.json_body r = Some Example.two_days
    ∧ (∀ v, JS.get_prop Example.two_days "Error Message" = Normal v →
            JS.truthy v = false)
    ∧ (∀ v, JS.get_prop Example.two_days "Note" = Normal v →
            JS.truthy v = false).
Proof.
  apply (ok_reply_is_payload (Gateway.QString "IBM") (Some "demo")
           (Example.replies 200 Example.two_days) Example.two_days).
  apply list_elem_of_singleton. reflexivity.
Defined.

(** X5. Every answer with another status than 200 is an object with the
    single field [error]. *)
Theorem error_reply_shape (symbol : Gateway.query_value)
    (API_KEY : option string) (fetch : string → Http.result)
    (code : Z) (body : json) :
  (code, body) ∈ Gateway.sent (Gateway.handler symbol API_KEY fetch) →
  code ≠ 200 →
  ∃ v, body = JObj {[ "error" := v ]}.
Proof.
  handler_paths symbol API_KEY fetch;
    rewrite ?list_elem_of_singleton; try (intros []%elem_of_nil; fail);
    intros [= -> ->] Hcode; try done; try (eexists; reflexivity).
  all: match goal with
       | H : JS.truthy ?v = true |- _ =>
           apply truthy_some in H as [j Hj]; rewrite Hj; eexists; reflexivity
       end.
Qed.

Lemma error_reply_shape_witness :
  ∃ v, Gateway.error_body (Some (JStr "Alpha Vantage error: down"))
       = JObj {[ "error" := v ]}.
Proof.
  apply (error_reply_shape (Gateway.QString "IBM") (Some "demo")
           (Example.fails 503 "down") 503
           (Gateway.error_body (Some (JStr "Alpha Vantage error: down")))).
  - apply list_elem_of_singleton. reflexivity.
  - discriminate.
Defined.

(** ** The controller on every path of Fetch *)

Lemma get_prop_settles (v : json) (k : string) : JS.get_prop v k ≠ Return.
Proof. by destruct v. Qed.

Lemma get_settles (v : jsval) (k : string) : JS.get v k ≠ Return.
Proof. destruct v as [j|]; [apply get_prop_settles|done]. Qed.

Lemma bind_settles {A B} (m : completion A) (f : A → completion B) :
  m ≠ Return → (∀ a, f a ≠ Return) → m ≫= f ≠ Return.
Proof. destruct m as [a| |]; simpl; auto. Qed.

Lemma field_settles (d : jsval) (name : string) :
  Controller.field d name ≠ Return.
Proof.
  unfold Controller.field. apply bind_settles; [apply get_settles|done].
Qed.

Lemma dayBar_settles (ts : json) (d : string) : Controller.dayBar ts d ≠ Return.
Proof.
  unfold Controller.dayBar.
  repeat (apply bind_settles;
          [first [apply get_prop_settles|apply field_settles]|intros ?]).
  done.
Qed.

Lemma mapM_settles {A B} (f : A → completion B) (l : list A) :
  (∀ a, f a ≠ Return) → mapM f l ≠ Return.
Proof.
  intros Hf. induction l as [|a l IH]; simpl; [done|].
  apply bind_settles; [apply Hf|]. intros b.
  apply bind_settles; [exact IH|done].
Qed.

(** The parse ends normally or throws: it has no [return]. *)
Lemma parseSeries_settles (ts : json) : Controller.parseSeries ts ≠ Return.
Proof.
  unfold Controller.parseSeries, Controller.sortedDates.
  apply bind_settles.
  { apply bind_settles; [by destruct ts|done]. }
  intros dates. destruct (dates !! 0%nat) as [latest|]; [|done].
  apply bind_settles; [apply get_prop_settles|]. intros latestData.
  apply bind_settles; [apply mapM_settles, dayBar_settles|]. intros bars.
  repeat (apply bind_settles; [apply field_settles|intros ?]).
  apply bind_settles; [|done].
  case_bool_decide; [|done].
  destruct (dates !! 1%nat) as [d1|]; [|done].
  apply bind_settles; [apply get_prop_settles|]. intros e.
  apply bind_settles; [apply field_settles|done].
Qed.

Lemma truthy_not_blank (v : jsval) :
  JS.truthy v = true → default JNull v ≠ JStr "".
Proof. destruct v as [j|]; [|done]. simpl. by intros Ht ->. Qed.

(** The two shapes of the trace of Fetch on a symbol that is not empty:
    after the clearing, the loading flag and the request, either one
    message and the end of loading, or the snapshot, the series, the
    history and the end of loading. *)
Lemma fetch_trace (symbol : string) (fetch : string → Http.result) :
  symbol ≠ "" →
  let start :=
    [Controller.SetError (JStr ""); Controller.SetStockData None;
     Controller.SetMultiDayData []; Controller.SetLoading true;
     Controller.HttpGet ("/api/stock?symbol=" +:+ symbol)] in
  (∃ message,
      message ≠ JStr ""
      ∧ (served_series fetch symbol = None
         ∨ ∃ ts, served_series fetch symbol = Some ts
                 ∧ Controller.parseSeries ts = Throw)
      ∧ events (Controller.fetchStock symbol fetch)
        = start ++ [Controller.SetError message; Controller.SetLoading false])
  ∨ (∃ ts snap bars,
        served_series fetch symbol = Some ts
        ∧ Controller.parseSeries ts = Normal (snap, bars)
        ∧ events (Controller.fetchStock symbol fetch)
          = start ++ [Controller.SetStockData (Some snap);
                      Controller.SetMultiDayData bars;
                      Controller.SetHistory (Controller.newHist symbol);
                      Controller.SetLoading false]).
Proof.
  intros Hsym start. subst start.
  unfold served_series, Controller.fetchStock, Controller.http_get.
  rewrite truthy_string by done. cbn.
  destruct (fetch ("/api/stock?symbol=" +:+ symbol)) as [|res]; cbn.
  { left. eexists. split_and!; [|by left|reflexivity]. done. }
  destruct (Http.json_body res) as [data|]; cbn.
  2: { left. eexists. split_and!; [|by left; destruct (Http.ok res)|reflexivity].
       done. }
  destruct (null_or_not data) as [->|Hne]; cbn.
  { destruct (Http.ok res); cbn;
      (left; eexists; split_and!; [|by left|reflexivity]; done). }
  destruct (Http.ok res); cbn.
  - destruct (get_prop_total data "Time Series (Daily)" Hne) as [v Hv].
    rewrite Hv. cbn.
    destruct v as [ts|]; cbn.
    2: { left. eexists. split_and!; [|by left|reflexivity]. done. }
    destruct (JS.truthy (Some ts)); cbn.
    2: { left. eexists. split_and!; [|by left|reflexivity]. done. }
    pose proof (parseSeries_settles ts) as Hsettles.
    destruct (Controller.parseSeries ts) as [[snap bars]| |] eqn:Hparse; cbn;
      [|done|].
    + right. exists ts, snap, bars. done.
    + left. eexists. split_and!; [|right; by exists ts|reflexivity]. done.
  - destruct (get_prop_total data "Error Message" Hne) as [msg Hmsg].
    rewrite Hmsg. cbn.
    left. eexists. split_and!; [|by left|reflexivity].
    destruct (JS.truthy msg) eqn:Ht; [by apply truthy_not_blank|done].
Qed.


(** X6. A call of Fetch with a symbol that is not empty always ends with
    the loading flag cleared, whatever the gateway does. *)
Theorem fetch_ends_loading (st : Controller.State)
    (fetch : string → Http.result) :
  Controller.symbol st ≠ "" →
  Controller.loading (fetched st fetch) = false.
Proof.
  intros Hsym. unfold fetched.
  destruct (fetch_trace _ fetch Hsym)
    as [(message & _ & _ & ->)|(ts & snap & bars & _ & _ & ->)]; reflexivity.
Qed.

Lemma fetch_ends_loading_witness :
  Controller.loading
    (fetched (Example.typed "IBM") (Example.fails 503 "down")) = false.
Proof.
  apply (fetch_ends_loading (Example.typed "IBM") (Example.fails 503 "down")).
  discriminate.
Defined.

(** X7. A call of Fetch with a symbol that is not empty sends exactly one
    request, to [/api/stock?symbol=] followed by the symbol as typed. *)
Theorem fetch_sends_one_request (st : Controller.State)
    (fetch : string → Http.result) :
  Controller.symbol st ≠ "" →
  requests (events (Controller.fetchStock (Controller.symbol st) fetch))
  = ["/api/stock?symbol=" +:+ Controller.symbol st].
Proof.
  intros Hsym.
  destruct (fetch_trace _ fetch Hsym)
    as [(message & _ & _ & ->)|(ts & snap & bars & _ & _ & ->)]; reflexivity.
Qed.

Lemma fetch_sends_one_request_witness :
  requests (events (Controller.fetchStock
                      (Controller.symbol (Example.typed "IBM"))
                      (Example.replies 200 Example.two_days)))
  = ["/api/stock?symbol=" +:+ Controller.symbol (Example.typed "IBM")].
Proof.
  apply (fetch_sends_one_request (Example.typed "IBM")
           (Example.replies 200 Example.two_days)).
  discriminate.
Defined.


(** ** When Fetch succeeds, and what it then shows *)

Lemma own_index_key (n i : nat) :
  (i < n)%nat → JS.own_index n (JS.index_key i) = Some i.
Proof.
  intros Hi. unfold JS.own_index.
  assert (Hfind : list_find (λ k', k' = JS.index_key i) (JS.index_keys n)
                  = Some (i, JS.index_key i)).
  { apply list_find_Some. split_and!.
    - unfold JS.index_keys. rewrite list_lookup_fmap, lookup_seq_lt by done.
      reflexivity.
    - done.
    - intros j y Hj Hlt ->. unfold JS.index_keys in Hj.
      rewrite list_lookup_fmap in Hj.
      destruct (seq 0 n !! j) as [j'|] eqn:Hseq; [|done].
      apply lookup_seq in Hseq as [-> _]. simpl in Hj.
      injection Hj as Hj. apply index_key_inj in Hj. lia. }
  by rewrite Hfind.
Qed.

Lemma string_get_lt (s : string) (i : nat) :
  (i < String.length s)%nat → ∃ c, String.get i s = Some c.
Proof.
  revert i. induction s as [|c s IH]; intros i Hi; simpl in Hi; [lia|].
  destruct i as [|i]; simpl; [eauto|]. apply IH. lia.
Qed.

(** Every key that [Object.keys] returns is readable on the same value. *)
Lemma own_key_readable (ts : json) (d : string) :
  d ∈ dated_entries ts → ∃ v, JS.get_prop ts d = Normal (Some v).
Proof.
  unfold dated_entries. destruct ts as [| | | s | l | m]; simpl;
    try (intros []%elem_of_nil; fail).
  - intros (i & -> & Hi)%list_elem_of_fmap.
    apply elem_of_seq in Hi as [_ Hi]. simpl in Hi.
    rewrite own_index_key by done. simpl.
    destruct (string_get_lt s i Hi) as [c Hc]. unfold JS.char_at.
    rewrite Hc. eauto.
  - intros (i & -> & Hi)%list_elem_of_fmap.
    apply elem_of_seq in Hi as [_ Hi]. simpl in Hi.
    rewrite own_index_key by done. simpl.
    destruct (lookup_lt_is_Some_2 l i Hi) as [v Hv]. rewrite Hv. eauto.
  - intros ([k v] & -> & Hkv)%list_elem_of_fmap.
    apply elem_of_map_to_list in Hkv. simpl. rewrite Hkv. eauto.
Qed.

Lemma field_total (v : json) (name : string) :
  v ≠ JNull → ∃ x, Controller.field (Some v) name = Normal x.
Proof.
  intros Hne. unfold Controller.field. simpl.
  destruct (get_prop_total v name Hne) as [p ->]. simpl. eauto.
Qed.

Lemma field_inv (d : jsval) (name : string) (x : float) :
  Controller.field d name = Normal x → ∃ v, d = Some v ∧ v ≠ JNull.
Proof.
  unfold Controller.field. intros (p & Hp & _)%bind_Normal.
  destruct d as [v|]; [|done]. exists v. split; [done|]. by intros ->.
Qed.

Lemma dayBar_readable (ts : json) (d : string) :
  (∃ bar, Controller.dayBar ts d = Normal bar) ↔ readable ts d.
Proof.
  unfold readable, Controller.dayBar. split.
  - intros [bar H]. apply bind_Normal in H as (e & He & H).
    apply bind_Normal in H as (o & Ho & _).
    apply field_inv in Ho as (v & -> & Hne). eauto.
  - intros (v & -> & Hne). simpl.
    destruct (field_total v "1. open" Hne) as [o ->].
    destruct (field_total v "2. high" Hne) as [h ->].
    destruct (field_total v "3. low" Hne) as [l ->].
    destruct (field_total v "4. close" Hne) as [c ->].
    destruct (field_total v "5. volume" Hne) as [vol ->].
    simpl. eauto.
Qed.

Lemma mapM_total {A B} (f : A → completion B) (l : list A) :
  (∀ a, a ∈ l → ∃ b, f a = Normal b) → ∃ bs, mapM f l = Normal bs.
Proof.
  induction l as [|a l IH]; intros Hall; simpl; [eauto|].
  destruct (Hall a) as [b ->]; [set_solver|]. simpl.
  destruct IH as [bs ->]; [intros; apply Hall; set_solver|]. simpl. eauto.
Qed.

Lemma mapM_each {A B} (f : A → completion B) (l : list A) (bs : list B) (a : A) :
  mapM f l = Normal bs → a ∈ l → ∃ b, f a = Normal b.
Proof.
  intros Hall%mapM_Normal Ha.
  induction Hall as [|x b l bs Hb _ IH]; [by apply elem_of_nil in Ha|].
  apply elem_of_cons in Ha as [->|Ha]; eauto.
Qed.

(** The parse succeeds exactly when the series has a date and every entry
    among its 10 newest dates is readable. *)
Lemma parseSeries_succeeds (ts : json) :
  (∃ snap bars, Controller.parseSeries ts = Normal (snap, bars))
  ↔ dated_entries ts ≠ []
    ∧ ∀ d, d ∈ take 10 (newest_first (dated_entries ts)) → readable ts d.
Proof.
  split.
  - intros (snap & bars & Hparse).
    apply parseSeries_inv in Hparse as (latest & rest & Hdates & _ & Hbars & _).
    split.
    + intros Hnil. rewrite Hnil in Hdates. done.
    + intros d Hd. rewrite Hdates in Hd. apply dayBar_readable.
      by eapply mapM_each.
  - intros [Hne Hall].
    unfold Controller.parseSeries, Controller.sortedDates.
    unfold dated_entries in *.
    destruct (JS.Object_keys ts) as [keys| |] eqn:Hkeys; [|done..].
    simpl. fold (newest_first keys) in *.
    destruct (newest_first keys) as [|latest rest] eqn:Hsorted.
    { apply (f_equal length) in Hsorted. rewrite newest_first_length in Hsorted.
      by destruct keys. }
    simpl.
    destruct (Hall latest) as (v & Hv & Hvn); [set_solver|].
    rewrite Hv. simpl. rewrite (slice_prefix 10).
    destruct (mapM_total (Controller.dayBar ts) (take 10 (latest :: rest)))
      as [bars Hbars].
    { intros d Hd. apply dayBar_readable. by apply Hall. }
    rewrite Hbars. simpl.
    destruct (field_total v "1. open" Hvn) as [o ->].
    destruct (field_total v "2. high" Hvn) as [h ->].
    destruct (field_total v "3. low" Hvn) as [l ->].
    destruct (field_total v "4. close" Hvn) as [c ->].
    destruct (field_total v "5. volume" Hvn) as [vol ->].
    simpl. destruct rest as [|d1 rest]; simpl; [eauto|].
    destruct (Hall d1) as (e & He & Hen); [set_solver|].
    rewrite He. simpl.
    destruct (field_total e "4. close" Hen) as [p ->]. simpl. eauto.
Qed.

(** X9. A call of Fetch with a symbol that is not empty leaves a snapshot
    exactly when the gateway serves a time series that has at least one
    date and whose entries for its 10 newest dates are all readable, that
    is, not [null]. An entry beyond the tenth date is never read. *)
Theorem fetch_succeeds_iff (st : Controller.State)
    (fetch : string → Http.result) :
  Controller.symbol st ≠ "" →
  (Controller.stockData (fetched st fetch) ≠ None
   ↔ ∃ ts,
       served_series fetch (Controller.symbol st) = Some ts
       ∧ dated_entries ts ≠ []
       ∧ ∀ d, d ∈ take 10 (newest_first (dated_entries ts)) → readable ts d).
Proof.
  intros Hsym. unfold fetched.
  destruct (fetch_trace _ fetch Hsym)
    as [(message & _ & Hfail & ->)|(ts & snap & bars & Hserved & Hparse & ->)];
    cbn.
  - split; [done|]. intros (ts & Hserved & Hok).
    destruct Hfail as [Hnone|(ts' & Hserved' & Hthrow)]; [congruence|].
    assert (ts' = ts) as -> by congruence.
    apply parseSeries_succeeds in Hok as (snap & bars & Hparse). congruence.
  - split; [|done]. intros _. exists ts. split; [done|].
    apply parseSeries_succeeds. eauto.
Qed.

Lemma dayBar_close (ts : json) (d : string) (bar : DayBar.t) :
  Controller.dayBar ts d = Normal bar →
  close_on ts d = Normal (DayBar.close bar).
Proof.
  unfold Controller.dayBar, close_on. intros H. invert_binds H.
  injection H as <-. simpl.
  repeat match goal with
         | H : _ = Normal _ |- _ => rewrite H; clear H; simpl
         end.
  done.
Qed.

Lemma fetch_succeeds_iff_witness :
  Controller.stockData
    (fetched (Example.typed "IBM") (Example.replies 200 Example.two_days))
  ≠ None
  ↔ ∃ ts,
      served_series (Example.replies 200 Example.two_days)
        (Controller.symbol (Example.typed "IBM")) = Some ts
      ∧ dated_entries ts ≠ []
      ∧ ∀ d, d ∈ take 10 (newest_first (dated_entries ts)) → readable ts d.
Proof.
  apply (fetch_succeeds_iff (Example.typed "IBM")
           (Example.replies 200 Example.two_days)).
  discriminate.
Defined.

Lemma parseSeries_first_bar (ts : json) (snap : StockData.t)
    (bars : list DayBar.t) :
  Controller.parseSeries ts = Normal (snap, bars) →
  ∃ bar rest,
    bars = bar :: rest
    ∧ DayBar.date bar = StockData.date snap
    ∧ DayBar.open bar = StockData.open snap
    ∧ DayBar.high bar = StockData.high snap
    ∧ DayBar.low bar = StockData.low snap
    ∧ DayBar.close bar = StockData.close snap
    ∧ DayBar.volume bar = StockData.volume snap
    ∧ StockData.prevClose snap = DayBar.close <$> head rest.
Proof.
  unfold Controller.parseSeries, Controller.sortedDates.
  intros H.
  apply bind_Normal in H as (dates & Hdates & H).
  destruct dates as [|latest rest]; [done|]. simpl in H.
  invert_binds H. rewrite (slice_prefix 10) in *. simpl in *.
  match goal with
  | Hm : _ ≫= _ = Normal ?bs |- _ =>
      apply bind_Normal in Hm as (bar & Hbar & Hm);
      apply bind_Normal in Hm as (others & Hothers & [= <-])
  end.
  injection H as <- <-. exists bar, others.
  unfold Controller.dayBar in Hbar. invert_binds Hbar.
  injection Hbar as <-. simpl.
  repeat match goal with
         | Ha : ?c = Normal ?a, Hb : ?c = Normal ?b |- _ =>
             assert (a = b) as -> by congruence; clear Hb
         end.
  split_and!; try done.
  destruct rest as [|d1 rest]; simpl in *.
  - injection Hothers as <-.
    match goal with Hp : mret None = Normal _ |- _ => by injection Hp as <- end.
  - apply bind_Normal in Hothers as (bar1 & Hbar1 & Hothers).
    apply bind_Normal in Hothers as (more & _ & [= <-]).
    apply dayBar_close in Hbar1. unfold close_on in Hbar1.
    match goal with
    | Hp : _ ≫= _ = Normal ?p |- _ =>
        apply bind_Normal in Hp as (e & He & Hp);
        apply bind_Normal in Hp as (c & Hc & [= <-])
    end.
    rewrite He in Hbar1. simpl in Hbar1. simpl. congruence.
Qed.


(** X10. After a successful Fetch the snapshot and the series agree: the
    first bar of the series has the date, open, high, low, close and
    volume of the snapshot, and the previous close of the snapshot is the
    close of the second bar, or [null] when the series has one bar. *)
Theorem snapshot_is_first_bar (st : Controller.State)
    (fetch : string → Http.result) (snap : StockData.t) :
  Controller.stockData (fetched st fetch) = Some snap →
  ∃ bar rest,
    Controller.multiDayData (fetched st fetch) = bar :: rest
    ∧ DayBar.date bar = StockData.date snap
    ∧ DayBar.open bar = StockData.open snap
    ∧ DayBar.high bar = StockData.high snap
    ∧ DayBar.low bar = StockData.low snap
    ∧ DayBar.close bar = StockData.close snap
    ∧ DayBar.volume bar = StockData.volume snap
    ∧ StockData.prevClose snap = DayBar.close <$> head rest.
Proof.
  intros (ts & bars & _ & Hparse & -> & _)%fetch_success.
  by apply parseSeries_first_bar in Hparse.
Qed.

Lemma snapshot_is_first_bar_witness :
  ∃ bar rest,
    Controller.multiDayData
      (fetched (Example.typed "IBM") (Example.replies 200 Example.two_days))
    = bar :: rest
    ∧ DayBar.date bar = StockData.date Example.latest
    ∧ DayBar.open bar = StockData.open Example.latest
    ∧ DayBar.high bar = StockData.high Example.latest
    ∧ DayBar.low bar = StockData.low Example.latest
    ∧ DayBar.close bar = StockData.close Example.latest
    ∧ DayBar.volume bar = StockData.volume Example.latest
    ∧ StockData.prevClose Example.latest = DayBar.close <$> head rest.
Proof.
  apply (snapshot_is_first_bar (Example.typed "IBM")
           (Example.replies 200 Example.two_days) Example.latest).
  vm_compute. reflexivity.
Defined.

(** ** The messages of a failed Fetch *)

Lemma parseSeries_throws (ts : json) :
  ¬ (dated_entries ts ≠ []
     ∧ ∀ d, d ∈ take 10 (newest_first (dated_entries ts)) → readable ts d) →
  Controller.parseSeries ts = Throw.
Proof.
  intros Hnot. pose proof (parseSeries_settles ts) as Hsettles.
  destruct (Controller.parseSeries ts) as [[snap bars]| |] eqn:Hparse;
    [|done..].
  destruct Hnot. apply parseSeries_succeeds. eauto.
Qed.

(** X11. Which message a failed Fetch leaves, for a symbol that is not
    empty: [Error fetching stock data] when the request fails, the body is
    not JSON or is [null], or the series served has no date or an
    unreadable entry among its 10 newest dates; [No time series data
    available for this symbol] when a success reply has no truthy time
    series; and for a reply without success status the truthy [Error
    Message] of the payload, or else [Failed to fetch stock data]. *)
Theorem fetch_failure_messages (st : Controller.State)
    (fetch : string → Http.result) :
  Controller.symbol st ≠ "" →
  let upstream := fetch ("/api/stock?symbol=" +:+ Controller.symbol st) in
  let shown := Controller.error (fetched st fetch) in
  (upstream = Http.Rejects → shown = JStr "Error fetching stock data")
  ∧ (∀ r, upstream = Http.Resolves r →
          Http.json_body r = None ∨ Http.json_body r = Some JNull →
          shown = JStr "Error fetching stock data")
  ∧ (∀ r data, upstream = Http.Resolves r → Http.json_body r = Some data →
               data ≠ JNull → Http.ok r = true →
               served_series fetch (Controller.symbol st) = None →
               shown = JStr "No time series data available for this symbol")
  ∧ (∀ ts, served_series fetch (Controller.symbol st) = Some ts →
           ¬ (dated_entries ts ≠ []
              ∧ ∀ d, d ∈ take 10 (newest_first (dated_entries ts)) →
                     readable ts d) →
           shown = JStr "Error fetching stock data")
  ∧ (∀ r data message, upstream = Http.Resolves r →
        Http.json_body r = Some data → Http.ok r = false →
        JS.get_prop data "Error Message" = Normal message →
        shown = if JS.truthy message then default JNull message
                else JStr "Failed to fetch stock data").
Proof.
  intros Hsym upstream shown. subst upstream shown.
  unfold fetched, served_series, Controller.fetchStock, Controller.http_get.
  rewrite truthy_string by done. cbn.
  destruct (fetch ("/api/stock?symbol=" +:+ Controller.symbol st)) as [|res];
    cbn.
  { split_and!; try done. }
  split_and!; [done| | | |].
  - intros r [= <-] [->| ->]; cbn; [done|]. by destruct (Http.ok res).
  - intros r data [= <-] -> Hne ->. cbn.
    destruct (get_prop_total data "Time Series (Daily)" Hne) as [v ->]. cbn.
    destruct v as [ts|]; cbn; [|done].
    destruct (JS.truthy (Some ts)); cbn; done.
  - destruct (Http.ok res); [|done].
    destruct (Http.json_body res) as [data|]; cbn; [|done].
    destruct (JS.get_prop data "Time Series (Daily)") as [[ts|]| |]; cbn;
      try done.
    destruct (JS.truthy (Some ts)); cbn; [|done].
    intros ts' [= <-] Hnot. by rewrite (parseSeries_throws ts Hnot).
  - intros r data message [= <-] -> -> Hmessage. cbn.
    rewrite Hmessage. cbn. done.
Qed.

Lemma fetch_failure_messages_witness :
  let st := Example.typed "IBM" in
  let fetch := Example.replies 429 Example.rate_limited in
  let upstream := fetch ("/api/stock?symbol=" +:+ Controller.symbol st) in
  let shown := Controller.error (fetched st fetch) in
  (upstream = Http.Rejects → shown = JStr "Error fetching stock data")
  ∧ (∀ r, upstream = Http.Resolves r →
          Http.json_body r = None ∨ Http.json_body r = Some JNull →
          shown = JStr "Error fetching stock data")
  ∧ (∀ r data, upstream = Http.Resolves r → Http.json_body r = Some data →
               data ≠ JNull → Http.ok r = true →
               served_series fetch (Controller.symbol st) = None →
               shown = JStr "No time series data available for this symbol")
  ∧ (∀ ts, served_series fetch (Controller.symbol st) = Some ts →
           ¬ (dated_entries ts ≠ []
              ∧ ∀ d, d ∈ take 10 (newest_first (dated_entries ts)) →
                     readable ts d) →
           shown = JStr "Error fetching stock data")
  ∧ (∀ r data message, upstream = Http.Resolves r →
        Http.json_body r = Some data → Http.ok r = false →
        JS.get_prop data "Error Message" = Normal message →
        shown = if JS.truthy message then default JNull message
                else JStr "Failed to fetch stock data").
Proof.
  apply (fetch_failure_messages (Example.typed "IBM")
           (Example.replies 429 Example.rate_limited)).
  discriminate.
Defined.

(** ** The page behind the gateway *)

Lemma gateway_error_facts (symbol : Gateway.query_value)
    (API_KEY : option string) (fetch : string → Http.result)
    (code : Z) (body : json) :
  (code, body) ∈ Gateway.sent (Gateway.handler symbol API_KEY fetch) →
  code ≠ 200 →
  success_status code = false ∧ ∃ v, body = JObj {[ "error" := v ]}.
Proof.
  handler_paths symbol API_KEY fetch;
    rewrite ?list_elem_of_singleton; try (intros []%elem_of_nil; fail);
    intros [= -> ->] Hcode; try done;
    try (split; [reflexivity|eexists; reflexivity]).
  all: try match goal with
       | H : JS.truthy ?v = true |- _ =>
           apply truthy_some in H as [j Hj]; rewrite Hj;
           split; [reflexivity|eexists; reflexivity]
       end.
  split; [exact Hok|eexists; reflexivity].
Qed.

(** X12. When the page receives a reply that the gateway sent with
    another status than 200, it shows [Failed to fetch stock data] and no
    snapshot: the message that the gateway put in its [error] field
    (missing symbol, missing key, rate limit, provider error) is not the
    one displayed, because the page reads the field [Error Message]. *)
Theorem gateway_error_is_generic (st : Controller.State)
    (query : Gateway.query_value) (API_KEY : option string)
    (upstream fetch : string → Http.result)
    (reply : Http.Response) (body : json) :
  Controller.symbol st ≠ "" →
  (Http.status reply, body)
    ∈ Gateway.sent (Gateway.handler query API_KEY upstream) →
  Http.status reply ≠ 200 →
  Http.json_body reply = Some body →
  fetch ("/api/stock?symbol=" +:+ Controller.symbol st) = Http.Resolves reply →
  Controller.error (fetched st fetch) = JStr "Failed to fetch stock data"
  ∧ Controller.stockData (fetched st fetch) = None.
Proof.
  intros Hsym Hsent Hcode Hbody Hfetch.
  destruct (gateway_error_facts query API_KEY upstream _ body Hsent Hcode)
    as [Hstatus [v ->]].
  unfold fetched, Controller.fetchStock, Controller.http_get.
  rewrite truthy_string by done. cbn.
  rewrite Hfetch. cbn. rewrite Hbody. cbn.
  change (Http.ok reply) with (success_status (Http.status reply)).
  rewrite Hstatus. cbn.
  rewrite lookup_singleton_ne by done. cbn. done.
Qed.

Lemma gateway_error_is_generic_witness :
  Controller.error
    (fetched (Example.typed "IBM")
       (Example.replies 429 (JObj {[ "error" := JStr "rate limited" ]})))
  = JStr "Failed to fetch stock data"
  ∧ Controller.stockData
      (fetched (Example.typed "IBM")
         (Example.replies 429 (JObj {[ "error" := JStr "rate limited" ]})))
    = None.
Proof.
  apply (gateway_error_is_generic (Example.typed "IBM")
           (Gateway.QString "IBM") (Some "demo")
           (Example.replies 200 Example.rate_limited)
           (Example.replies 429 (JObj {[ "error" := JStr "rate limited" ]}))
           {| Http.status := 429; Http.text := None;
              Http.json_body := Some (JObj {[ "error" := JStr "rate limited" ]}) |}
           (JObj {[ "error" := JStr "rate limited" ]})).
  - discriminate.
  - apply list_elem_of_singleton. reflexivity.
  - discriminate.
  - reflexivity.
  - reflexivity.
Defined.

(** ** More on the two lists *)

Lemma filter_all {A} (P : A → Prop) `{!∀ x, Decision (P x)} (l : list A) :
  Forall P l → filter P l = l.
Proof.
  induction 1 as [|x l Hx _ IH]; [done|].
  rewrite filter_cons_True by done. by rewrite IH.
Qed.

Lemma filter_none {A} (P : A → Prop) `{!∀ x, Decision (P x)} (l : list A) :
  Forall (λ x, ¬ P x) l → filter P l = [].
Proof.
  induction 1 as [|x l Hx _ IH]; [done|].
  by rewrite filter_cons_False.
Qed.

Lemma others_distinct (sym : string) (l : list string) :
  Forall (λ h, h ≠ sym) (filter (λ h, h ≠ sym) l).
Proof. apply Forall_forall. intros x [Hx _]%list_elem_of_filter. done. Qed.

Lemma newHist_idempotent (sym : string) (prev : list string) :
  Controller.newHist sym (Controller.newHist sym prev)
  = Controller.newHist sym prev.
Proof.
  rewrite !newHist_unfold.
  rewrite !(firstn_cons 9).
  rewrite filter_cons_False by (intros Hne; by apply Hne).
  rewrite (filter_all _ (take 9 _)).
  - by rewrite take_idemp.
  - apply Forall_take, others_distinct.
Qed.

(** X13. One history append puts the symbol first, invents no symbol,
    keeps the other symbols in their order, loses none of them while the
    history has fewer than 10 entries, and appending the same symbol again
    changes nothing. *)
Theorem history_append_effect (st : Controller.State) (sym : string) :
  let prev := Controller.history st in
  let next := Controller.history (searched st [sym]) in
  head next = Some sym
  ∧ (∀ x, x ∈ next → x = sym ∨ x ∈ prev)
  ∧ filter (λ h, h ≠ sym) next `prefix_of` filter (λ h, h ≠ sym) prev
  ∧ ((length prev < 10)%nat → ∀ x, x ∈ prev → x ∈ next)
  ∧ Controller.history (searched st [sym; sym]) = next.
Proof.
  intros prev next. subst prev next. rewrite !searched_history. simpl.
  split_and!.
  - by rewrite newHist_unfold.
  - intros x. rewrite newHist_unfold.
    rewrite !(firstn_cons 9).
    intros [->|Hx]%elem_of_cons; [by left|right].
    apply (list_elem_of_filter (λ h, h ≠ sym)).
    rewrite <- (take_drop 9 (filter _ _)). apply elem_of_app. by left.
  - rewrite newHist_unfold.
    rewrite !(firstn_cons 9).
    rewrite filter_cons_False by (intros Hne; by apply Hne).
    rewrite (filter_all _ (take 9 _)) by apply Forall_take, others_distinct.
    apply prefix_take.
  - intros Hlen x Hx. rewrite newHist_unfold.
    rewrite !(firstn_cons 9).
    destruct (decide (x = sym)) as [->|Hne]; [set_solver|].
    apply elem_of_cons. right.
    rewrite take_ge.
    + by apply list_elem_of_filter.
    + pose proof (length_filter (λ h, h ≠ sym) (Controller.history st)). lia.
  - apply newHist_idempotent.
Qed.

(** X14. On favorites without duplicates, a toggle leaves favorites
    without duplicates, and two toggles of one symbol leave the same
    symbols, in the same list when the symbol was absent (when it was
    present it has moved to the end). *)
Theorem toggle_keeps_distinct (st : Controller.State) (sym : string) :
  NoDup (Controller.favorites st) →
  NoDup (Controller.favorites (toggled st sym))
  ∧ Controller.favorites (toggled (toggled st sym) sym)
    ≡ₚ Controller.favorites st
  ∧ (sym ∉ Controller.favorites st →
     Controller.favorites (toggled (toggled st sym) sym)
     = Controller.favorites st).
Proof.
  intros Hnodup.
  assert (Hon : ∀ l, sym ∉ l → filter (λ f, f ≠ sym) (l ++ [sym]) = l).
  { intros l Hl. rewrite filter_app, filter_all, filter_none.
    - by rewrite app_nil_r.
    - repeat constructor. by intros Hne.
    - apply Forall_forall. intros x Hx ->. done. }
  split_and!.
  - rewrite toggled_favorites. case_bool_decide.
    + by apply NoDup_filter.
    + apply NoDup_app. split_and!; [done|set_solver|apply NoDup_singleton].
  - rewrite (toggled_favorites (toggled st sym)), toggled_favorites.
    destruct (decide (sym ∈ Controller.favorites st)) as [Hin|Hout].
    + rewrite (bool_decide_eq_true_2 _ Hin).
      rewrite bool_decide_eq_false_2
        by (rewrite list_elem_of_filter; intros [Hne _]; by apply Hne).
      rewrite <- (filter_app_complement (λ f, f ≠ sym) (Controller.favorites st))
        at 2.
      apply Permutation_app_head.
      apply NoDup_Permutation; [apply NoDup_singleton|by apply NoDup_filter|].
      intros x. rewrite list_elem_of_singleton, list_elem_of_filter.
      split; [intros ->; split; [by intros Hne|done]|].
      intros [Hx _]. by destruct (decide (x = sym)).
    + rewrite (bool_decide_eq_false_2 _ Hout).
      rewrite bool_decide_eq_true_2 by set_solver.
      by rewrite Hon.
  - intros Hout.
    rewrite (toggled_favorites (toggled st sym)), toggled_favorites.
    rewrite (bool_decide_eq_false_2 _ Hout).
    rewrite bool_decide_eq_true_2 by set_solver.
    by apply Hon.
Qed.

Lemma toggle_keeps_distinct_witness :
  NoDup (Controller.favorites (toggled Example.ten_searches "A"))
  ∧ Controller.favorites (toggled (toggled Example.ten_searches "A") "A")
    ≡ₚ Controller.favorites Example.ten_searches
  ∧ ("A" ∉ Controller.favorites Example.ten_searches →
     Controller.favorites (toggled (toggled Example.ten_searches "A") "A")
     = Controller.favorites Example.ten_searches).
Proof.
  apply (toggle_keeps_distinct Example.ten_searches "A").
  apply (bool_decide_unpack _). vm_compute. exact I.
Defined.

(** ** Saving and restoring *)

Section PersistFacts.

Variable JSON_stringify : json → string.
Variable JSON_parse : string → option json.


End PersistFacts.


(** ** The market clock *)

(** X16. With minutes between 0 and 59, the status is [Market Open]
    exactly on the days 1 to 5 of the week from 9:30 included to 16:00
    excluded, and [Market Closed (Weekend)] exactly on the days 0 and 6,
    whatever the time. *)
Theorem market_open_iff (day hour minutes : Z) :
  0 ≤ minutes < 60 →
  (Market.checkMarketStatus day hour minutes = "Market Open"
   ↔ day ≠ 0 ∧ day ≠ 6 ∧ 570 ≤ Market.minute_of_day hour minutes < 960)
  ∧ (Market.checkMarketStatus day hour minutes = "Market Closed (Weekend)"
     ↔ day = 0 ∨ day = 6).
Proof.
  intros Hminutes. unfold Market.checkMarketStatus, Market.minute_of_day.
  destruct (Z.eqb_spec day 0), (Z.eqb_spec day 6); simpl;
    try (split; split; [discriminate|lia|auto|auto]; fail).
  destruct (Z.ltb_spec 9 hour), (Z.eqb_spec hour 9), (Z.leb_spec 30 minutes),
    (Z.ltb_spec hour 16); simpl;
    split; split; first [discriminate|lia|intros; split_and!; lia|done|idtac].
  all: intros [|]; lia.
Qed.

Lemma market_open_iff_witness :
  (Market.checkMarketStatus 3 9 30 = "Market Open"
   ↔ 3 ≠ 0 ∧ 3 ≠ 6 ∧ 570 ≤ Market.minute_of_day 9 30 < 960)
  ∧ (Market.checkMarketStatus 3 9 30 = "Market Closed (Weekend)"
     ↔ 3 = 0 ∨ 3 = 6).
Proof. apply (market_open_iff 3 9 30). lia. Defined.

(** ** Printing numbers, on concrete inputs *)

Example toString_values :
  NumberText.toString 11 = "11"
  ∧ NumberText.toString 9.5 = "9.5"
  ∧ NumberText.toString (-1.5) = "-1.5"
  ∧ NumberText.toString 0.125 = "0.125"
  ∧ NumberText.toString 100 = "100"
  ∧ NumberText.toString 1e20 = "100000000000000000000"
  ∧ NumberText.toString 1e21 = "1e+21"
  ∧ NumberText.toString 9007199254740992 = "9007199254740992"
  ∧ NumberText.toString 0.0000019073486328125 = "0.0000019073486328125"
  ∧ NumberText.toString 0.000000059604644775390625 = "5.960464477539063e-8"
  ∧ NumberText.toString (-0) = "0"
  ∧ NumberText.toString nan = "NaN"
  ∧ NumberText.toString infinity = "Infinity".
Proof. by vm_compute. Qed.

(** ** The export *)

Section CsvFacts.

(** A separator of the export: the comma or the line feed. *)
Variable c : ascii.
Hypothesis separator : c = ","%char ∨ c = "010"%char.

Lemma count_app (a b : string) :
  Page.count c (a +:+ b) = (Page.count c a + Page.count c b)%nat.
Proof. induction a as [|x a IH]; simpl; [done|]. rewrite IH. lia. Qed.

Lemma count_digits (s : string) :
  Number.all_digits s = true → Page.count c s = 0%nat.
Proof.
  induction s as [|x s IH]; simpl; [done|].
  intros [Hx Hs]%andb_true_iff. rewrite IH by done.
  rewrite bool_decide_eq_false_2; [done|].
  intros ->. destruct separator as [->| ->]; discriminate Hx.
Qed.

Lemma count_zeros (k : nat) : Page.count c (Number.zeros k) = 0%nat.
Proof. apply count_digits, zeros_shape. Qed.

Lemma count_number_digits (n : Z) : Page.count c (Number.digits n) = 0%nat.
Proof. apply count_digits, digits_shape. Qed.

Lemma count_constant (s : string) :
  Page.count ","%char s = 0%nat → Page.count "010"%char s = 0%nat →
  Page.count c s = 0%nat.
Proof. by destruct separator as [->| ->]. Qed.

Lemma count_layout (s n : Z) (k : nat) :
  Page.count c (NumberText.layout s n k) = 0%nat.
Proof.
  unfold NumberText.layout.
  pose proof (proj1 (digits_shape s)) as Hds.
  pose proof (count_number_digits (Z.abs (n - 1))) as Hexp.
  revert Hds. generalize (Number.digits s) as ds. intros ds Hds.
  destruct ((Z.of_nat k <=? n) && (n <=? 21)).
  { by rewrite count_app, count_zeros, count_digits. }
  destruct ((0 <? n) && (n <=? 21)).
  { rewrite !count_app, (count_constant ".") by done.
    by rewrite !(count_digits (String.substring _ _ ds))
      by (by apply all_digits_substring). }
  destruct ((-6 <? n) && (n <=? 0)).
  { by rewrite !count_app, count_zeros, (count_constant "0."), count_digits. }
  assert (Hmark : Page.count c (if 0 <=? n - 1 then "e+" else "e-") = 0%nat).
  { destruct (0 <=? n - 1); by apply count_constant. }
  destruct ds as [|a [|b r]].
  - by rewrite !count_app, Hmark, Hexp.
  - by rewrite !count_app, Hmark, Hexp, count_digits.
  - change (String a ("." +:+ String b r)) with (String a "" +:+ "." +:+ String b r).
    simpl in Hds. apply andb_true_iff in Hds as [Ha Hr].
    rewrite !count_app, Hmark, Hexp, (count_constant ".") by done.
    rewrite (count_digits (String a "")) by (simpl; by rewrite Ha).
    by rewrite (count_digits (String b r)).
Qed.

Lemma count_toString (x : float) : Page.count c (NumberText.toString x) = 0%nat.
Proof.
  unfold NumberText.toString.
  destruct (Prim2SF x) as [sign|sign| |sign m e].
  - by apply count_constant.
  - destruct sign; by apply count_constant.
  - by apply count_constant.
  - destruct (if 0 <=? e then _ else _) as [num den].
    destruct (NumberText.shortest _ _ _ _ _ _) as [[s n] k].
    rewrite count_app, count_layout.
    destruct sign; by rewrite count_constant.
Qed.

End CsvFacts.

Lemma count_row_commas (d : DayBar.t) :
  Page.count ","%char (Page.row d)
  = (5 + Page.count ","%char (DayBar.date d))%nat.
Proof.
  unfold Page.row.
  rewrite !(count_app ","%char), !(count_toString ","%char) by auto.
  simpl. lia.
Qed.

Lemma count_row_feeds (d : DayBar.t) :
  Page.count "010"%char (Page.row d) = Page.count "010"%char (DayBar.date d).
Proof.
  unfold Page.row.
  rewrite !(count_app "010"%char), !(count_toString "010"%char) by auto.
  simpl. lia.
Qed.

Lemma count_join (c : ascii) (rows : list string) (first : string) (k : nat) :
  Forall (λ r, Page.count c r = k) rows →
  Page.count c (foldl (λ acc y, acc +:+ Page.LF +:+ y) first rows)
  = (Page.count c first + length rows * (Page.count c Page.LF + k))%nat.
Proof.
  intros Hrows. revert first.
  induction Hrows as [|r rows Hr _ IH]; intros first; cbn [foldl length];
    [lia|].
  rewrite IH.
  assert (Happ : ∀ a b, Page.count c (a +:+ b) = (Page.count c a + Page.count c b)%nat).
  { intros a b. induction a as [|x a IHa]; simpl; [done|]. rewrite IHa. lia. }
  rewrite !Happ, Hr.
  generalize (Page.count c Page.LF) as lf. intros lf.
  rewrite Nat.mul_succ_l. lia.
Qed.

(** X17. The export does nothing on an empty series. On a series with
    bars it offers one file, named after the symbol, that starts with the
    header line; when no date holds a comma or a line feed, the rest has
    one line per bar, in as many line feeds as bars but one, and five
    commas per bar: the numbers never print either character. *)
Theorem export_csv_shape (render : Controller.State) :
  let bars := Controller.multiDayData render in
  (bars = [] → events (Page.exportCSV render) = [])
  ∧ (bars ≠ [] →
     ∃ rows,
       events (Page.exportCSV render)
       = [Page.Download (Controller.symbol render +:+ "_data.csv")
            ("Date,Open,High,Low,Close,Volume" +:+ Page.LF +:+ rows)]
       ∧ (Forall (λ d, plain_field (DayBar.date d)) bars →
          Page.count "010"%char rows = (length bars - 1)%nat
          ∧ Page.count ","%char rows = (5 * length bars)%nat)).
Proof.
  intros bars. subst bars. unfold Page.exportCSV. split.
  - intros ->. reflexivity.
  - intros Hne. destruct (Controller.multiDayData render) as [|d bars]; [done|].
    rewrite bool_decide_eq_false_2 by done.
    eexists. split; [reflexivity|].
    intros Hplain. apply Forall_cons in Hplain as [[Hdc Hdf] Hplain].
    simpl. split.
    + rewrite (count_join _ _ _ 0).
      * rewrite count_row_feeds, Hdf, length_fmap. simpl. lia.
      * apply Forall_fmap. eapply Forall_impl; [exact Hplain|].
        intros b [_ Hb]. simpl. by rewrite count_row_feeds.
    + rewrite (count_join _ _ _ 5).
      * rewrite count_row_commas, Hdc, length_fmap. simpl. lia.
      * apply Forall_fmap. eapply Forall_impl; [exact Hplain|].
        intros b [Hb _]. simpl. rewrite count_row_commas, Hb. lia.
Qed.

(** ** Callbacks scheduled by the page *)

#[local] Arguments Controller.fetchStock : simpl never.

Lemma replay_symbol (st : Controller.State) (es : list Controller.event) :
  Controller.symbol (Controller.replay st es) = Controller.symbol st.
Proof.
  unfold Controller.replay. revert st.
  induction es as [|e es IH]; intros st; simpl; [done|].
  rewrite IH. by destruct e.
Qed.

(** X18. The load from the page address never fetches: for every symbol
    given in the address, the callback scheduled by the effect is the
    [fetchStock] of the first render, whose symbol is empty. After it has
    run, the symbol cell holds the upper-cased symbol, the error cell holds
    the empty-symbol message, there is no snapshot, and no request was
    sent. *)
Theorem url_symbol_is_not_fetched (toUpperCase : string → string)
    (fetch : string → Http.result) (sym : string) :
  sym ≠ "" →
  let es := events (Page.loadFromUrl toUpperCase fetch Page.initial (Some sym)) in
  let page := Page.settled Page.initial es in
  Controller.symbol page = toUpperCase sym
  ∧ Controller.error page = JStr "Please enter a stock symbol"
  ∧ Controller.stockData page = None
  ∧ later_requests es = [].
Proof.
  intros Hsym es page. subst es page.
  unfold Page.loadFromUrl, later_requests. simpl.
  rewrite truthy_string by done. cbn.
  rewrite empty_symbol_events. done.
Qed.

Lemma url_symbol_is_not_fetched_witness :
  let es :=
    events (Page.loadFromUrl Sample.upper (Example.replies 200 Example.two_days)
              Page.initial (Some "ibm")) in
  let page := Page.settled Page.initial es in
  Controller.symbol page = Sample.upper "ibm"
  ∧ Controller.error page = JStr "Please enter a stock symbol"
  ∧ Controller.stockData page = None
  ∧ later_requests es = [].
Proof.
  apply (url_symbol_is_not_fetched Sample.upper
           (Example.replies 200 Example.two_days) "ibm").
  discriminate.
Defined.

(** X19. A click on a history button sets the symbol to the one clicked,
    but the fetch it schedules is the one of the render that drew the
    button: the request, if any, is for the symbol shown before the click,
    and there is none when that symbol was empty. *)
Theorem history_click_fetches_previous (fetch : string → Http.result)
    (st : Controller.State) (h : string) :
  let es := events (Page.historyClick fetch st h) in
  Controller.symbol (Page.settled st es) = h
  ∧ later_requests es
    = if decide (Controller.symbol st = "") then []
      else ["/api/stock?symbol=" +:+ Controller.symbol st].
Proof.
  intros es. subst es. unfold later_requests. cbn. split.
  - by rewrite replay_symbol.
  - rewrite app_nil_r. case_decide as Hsym.
    + by rewrite Hsym, empty_symbol_events.
    + destruct (fetch_trace _ fetch Hsym)
        as [(message & _ & _ & ->)|(ts & snap & bars & _ & _ & ->)];
        reflexivity.
Qed.
